(** * Monte Carlo integration (task2.py) and production planning (task1.py):
      model and verification

    The development embeds [integral_mc] and [usage_example] of
    [src/task2.py].  Python floats are IEEE-754 binary64 values, modelled by
    Rocq's primitive floats; Python integers are unbounded, modelled by [Z].
    The module-level generator of Python's [random] is process-wide state: it
    is threaded explicitly through every call, together with what has been
    printed.

    It also embeds [production_optimization], [print_results] and [main] of
    [src/task1.py]: the linear program as the data handed to PuLP, the solver
    as a parameter, the report as the lines printed. *)

From Stdlib Require Import ZArith List Bool String Ascii Lia.
From Stdlib Require Import Floats Reals Lra Psatz.
Import ListNotations.

Local Open Scope Z_scope.

(** ** Python values and exceptions *)

(** The numbers a caller passes for [points_number] and [xmax]. *)
Inductive pynum : Type :=
  | PyInt (n : Z)
  | PyFloat (f : float).

(** The exceptions the modelled code can raise. [FunctionFault] stands for
    whatever else the caller's [func] raises, named by its message;
    [StopIteration] is kept apart because a generator expression does not let
    it through. *)
Inductive exn : Type :=
  | ValueError (msg : string)
  | ZeroDivisionError
  | OverflowError
  | TypeError
  | StopIteration
  | RuntimeError (msg : string)
  | FunctionFault (msg : string).

Inductive outcome (A : Type) : Type :=
  | Return (a : A)
  | Raise (e : exn).
Arguments Return {A} a.
Arguments Raise {A} e.

(** What reaches the consumer of a generator when its body raises [e]: a
    StopIteration is replaced by RuntimeError (PEP 479), any other exception
    passes as it is. *)
Definition leaving_generator (e : exn) : exn :=
  match e with
  | StopIteration => RuntimeError "generator raised StopIteration"
  | _ => e
  end.

(** The outcome of an expression evaluated in the body of a generator. *)
Definition in_generator {A} (o : outcome A) : outcome A :=
  match o with
  | Return a => Return a
  | Raise e => Raise (leaving_generator e)
  end.

(** What [print] and [plt.show] leave behind. A formatted line
    [f"{prefix}{v:.4f}{suffix}"] is kept as its parts. *)
Inductive event : Type :=
  | Say (text : string)
  | SayNumber (prefix : string) (v : float) (suffix : string)
  | ShowPlot (xmax : float).

(** ** Numeric primitives of the Python runtime *)

Module PyNum.

(** An integer as an exact (unrounded) binary operand. *)
Definition Z2SF (n : Z) : spec_float :=
  match n with
  | Z0 => S754_zero false
  | Zpos p => S754_finite false p 0
  | Zneg p => S754_finite true p 0
  end.

(** [float(n)]: the integer rounded to the nearest binary64 value. *)
Definition float_of_int (n : Z) : float :=
  SF2Prim (binary_normalize prec emax n 0 false).

(** [a / b] on two Python ints ([long_true_divide]): the exact quotient
    rounded once to nearest-even; division by zero and a quotient beyond the
    float range are errors. *)
Definition int_truediv (a b : Z) : outcome float :=
  if b =? 0 then Raise ZeroDivisionError
  else
    let q := SF2Prim (SFdiv prec emax (Z2SF a) (Z2SF b)) in
    if is_infinity q then Raise OverflowError else Return q.

(** [x / y] on two Python floats: a zero divisor (of either sign) raises. *)
Definition float_truediv (x y : float) : outcome float :=
  if is_zero y then Raise ZeroDivisionError else Return (x / y)%float.

(** [v < 0] for a Python number. *)
Definition lt0 (v : pynum) : bool :=
  match v with
  | PyInt n => n <? 0
  | PyFloat f => (f <? 0)%float
  end.

(** [isinstance(v, int)]. *)
Definition is_int (v : pynum) : bool :=
  match v with PyInt _ => true | PyFloat _ => false end.

(** [isinstance(v, (int, float))]. *)
Definition is_int_or_float (v : pynum) : bool :=
  match v with PyInt _ | PyFloat _ => true end.

(** The float a number denotes where the code uses it in float arithmetic
    ([xmax * ymax], [(b - a) * random()]); an integer is rounded to nearest.
    (Beyond the float range Python raises OverflowError at the conversion;
    no statement below is about such an [xmax].) *)
Definition as_float (v : pynum) : float :=
  match v with PyInt n => float_of_int n | PyFloat f => f end.

End PyNum.
Import PyNum.

(** ** The program *)

Definition DEFAULT_POINTS : Z := 1000.

(** Line 42: the validation guard of [integral_mc]. *)
Definition rejects (points_number : pynum) : bool :=
  lt0 points_number || negb (is_int points_number).

(** Line 70: the guard of [usage_example]. *)
Definition bad_xmax (xmax : pynum) : bool :=
  lt0 xmax || negb (is_int_or_float xmax).

(** Lines 76-78: the relative difference, in percent. *)
Definition difference_percent (analytical_result monte_carlo_result : float)
    : outcome float :=
  match float_truediv (abs (analytical_result - monte_carlo_result))
                      analytical_result with
  | Return q => Return (q * 100)%float
  | Raise e => Raise e
  end.

Section MonteCarlo.

(** Python's [random] module: the state of its hidden generator,
    [random.seed(a)] for an integer [a], and [random.random()]. *)
Variable rng : Type.
Variable random_seed : Z -> rng.
Variable random_random : rng -> float * rng.

(** The reference integrator [scipy.integrate.quad(func, a, b)], an external
    collaborator: it yields the value and an error estimate. *)
Variable quad :
  (float -> outcome float) -> float -> float -> outcome (float * float).

(** The drawing of lines 86-104 ([np.linspace], [func] applied to numpy
    arrays, the matplotlib calls up to [plt.show()]), external as well: it
    comes to its end or raises, for instance when [func] does not take
    arrays. It neither prints nor draws random numbers. *)
Variable draw : (float -> outcome float) -> pynum -> outcome unit.

(** The process state a call can touch. *)
Record world : Type := World { gen : rng; stdout : list event }.

(** Computations: they read and update the world and may raise; the world
    reached so far survives an exception. *)
Definition Py (A : Type) : Type := world -> outcome A * world.

Definition ret {A} (a : A) : Py A := fun w => (Return a, w).

Definition throw {A} (e : exn) : Py A := fun w => (Raise e, w).

Definition bind {A B} (m : Py A) (k : A -> Py B) : Py B :=
  fun w =>
    match m w with
    | (Return a, w') => k a w'
    | (Raise e, w') => (Raise e, w')
    end.

Definition lift {A} (o : outcome A) : Py A := fun w => (o, w).

Notation "x <- m ;; k" := (bind m (fun x => k))
  (at level 61, m at next level, right associativity).
Notation "m ;;; k" := (bind m (fun _ => k))
  (at level 61, right associativity).

Definition print (e : event) : Py unit :=
  fun w => (Return tt, World (gen w) (stdout w ++ [e])).

(** [random.seed(a)]. *)
Definition seed_generator (a : Z) : Py unit :=
  fun w => (Return tt, World (random_seed a) (stdout w)).

(** [random.uniform(a, b)], that is [a + (b - a) * self.random()]. *)
Definition random_uniform (a b : float) : Py float :=
  fun w =>
    let (u, g) := random_random (gen w) in
    (Return (a + (b - a) * u)%float, World g (stdout w)).

(** Lines 49-52: the generator expression under [sum]. Each round draws the
    ordinate first (left operand of [<=]), then the abscissa, then calls
    [func], inside the generator; [acc] is the running sum. *)
Fixpoint points_under_curve (xmax ymax : float)
    (func : float -> outcome float) (rounds : nat) (acc : Z) : Py Z :=
  match rounds with
  | O => ret acc
  | S rounds' =>
      y <- random_uniform 0 ymax ;;
      x <- random_uniform 0 xmax ;;
      fx <- lift (in_generator (func x)) ;;
      points_under_curve xmax ymax func rounds'
        (if (y <=? fx)%float then acc + 1 else acc)
  end.

Definition integral_mc (xmax ymax : float) (func : float -> outcome float)
    (points_number : pynum) (seed : option Z) : Py float :=
  if rejects points_number
  then throw (ValueError "points_number must be a positive integer")
  else
    match seed with Some a => seed_generator a | None => ret tt end ;;;
    match points_number with
    | PyFloat _ => throw TypeError
    | PyInt n =>
        under <- points_under_curve xmax ymax func (Z.to_nat n) 0 ;;
        let rectangle_area := (xmax * ymax)%float in
        ratio <- lift (int_truediv under n) ;;
        ret (ratio * rectangle_area)%float
    end.

(** Lines 74-104: what [usage_example] does once [xmax] passed its guard.
    The drawing code runs after the three lines are printed; the event
    [ShowPlot] records that it came to its end. *)
Definition compare_and_plot (xmax points_number : pynum)
    (func : float -> outcome float) : Py unit :=
  qr <- lift (quad func 0 (as_float xmax)) ;;
  let analytical_result := fst qr in
  ymax <- lift (func (as_float xmax)) ;;
  monte_carlo_result <-
    integral_mc (as_float xmax) ymax func points_number None ;;
  difference <- lift (difference_percent analytical_result monte_carlo_result) ;;
  print (SayNumber "Square calculated with Monte Carlo method = "
                   monte_carlo_result "") ;;;
  print (SayNumber "Square calculated by integral = " analytical_result "") ;;;
  print (SayNumber "Difference = " difference " %") ;;;
  lift (draw func xmax) ;;;
  print (ShowPlot (as_float xmax)).

Definition usage_example (xmax points_number : pynum)
    (func : float -> outcome float) : Py unit :=
  if bad_xmax xmax
  then print (Say "xmax must be a positive number")
  else compare_and_plot xmax points_number func.

(** *** The sampled points, as a list

    The code never stores the points; these definitions name them so that
    the streaming count can be compared with a count over the whole
    sample. *)

(** The [rounds] points (x, y) drawn from generator state [g], in the order
    the loop draws them, and the generator state left behind. *)
Fixpoint sample_points (xmax ymax : float) (rounds : nat) (g : rng)
    : list (float * float) * rng :=
  match rounds with
  | O => ([], g)
  | S rounds' =>
      let (u, g1) := random_random g in
      let (v, g2) := random_random g1 in
      let (rest, g') := sample_points xmax ymax rounds' g2 in
      (((0 + (xmax - 0) * v)%float, (0 + (ymax - 0) * u)%float) :: rest, g')
  end.

(** The generator state a call starts sampling from. *)
Definition start_state (seed : option Z) (w : world) : rng :=
  match seed with Some a => random_seed a | None => gen w end.

End MonteCarlo.

Arguments World {rng} gen stdout.
Arguments gen {rng} w.
Arguments stdout {rng} w.
Arguments integral_mc {rng} random_seed random_random xmax ymax func
  points_number seed _.
Arguments points_under_curve {rng} random_random xmax ymax func rounds acc _.
Arguments compare_and_plot {rng} random_seed random_random quad draw xmax
  points_number func _.
Arguments usage_example {rng} random_seed random_random quad draw xmax
  points_number func _.
Arguments sample_points {rng} random_random xmax ymax rounds g.
Arguments start_state {rng} random_seed seed w.

(** A point is under the curve iff [y <= func(x)]. *)
Definition under_curve (func : float -> outcome float) (p : float * float)
    : bool :=
  match func (fst p) with
  | Return fx => (snd p <=? fx)%float
  | Raise _ => false
  end.

(** The number of points of a sample under the curve. *)
Definition count_under (func : float -> outcome float)
    (points : list (float * float)) : Z :=
  Z.of_nat (List.length (filter (under_curve func) points)).

(** The first point of a sample at which [func] raises: its position and the
    fault. *)
Fixpoint first_fault (func : float -> outcome float)
    (points : list (float * float)) : option (nat * exn) :=
  match points with
  | [] => None
  | p :: rest =>
      match func (fst p) with
      | Raise e => Some (O, e)
      | Return _ =>
          match first_fault func rest with
          | Some (k, e) => Some (S k, e)
          | None => None
          end
      end
  end.

(** ** Python's generator: the Mersenne Twister MT19937

    [random.seed(a)] for an integer [a] runs [init_by_array] on the 32-bit
    words of [abs(a)]; [random.random()] builds a 53-bit fraction from two
    tempered words. Words are kept in [Z], masked to 32 bits. *)

Module MT19937.

Definition N : nat := 624.
Definition M : nat := 397.
Definition UPPER_MASK : Z := 0x80000000.
Definition LOWER_MASK : Z := 0x7fffffff.
Definition MATRIX_A : Z := 0x9908b0df.

Definition u32 (x : Z) : Z := Z.land x 0xffffffff.

Record state : Type := State { mt : list Z; index : nat }.

Definition get (l : list Z) (i : nat) : Z := nth i l 0.

Fixpoint set (l : list Z) (i : nat) (v : Z) : list Z :=
  match l, i with
  | [], _ => []
  | _ :: t, O => v :: t
  | h :: t, S i' => h :: set t i' v
  end.

(** [init_genrand(s)]: the linear recurrence that fills the 624 words. *)
Fixpoint init_words (prev i : Z) (count : nat) : list Z :=
  match count with
  | O => []
  | S c =>
      let w := u32 (1812433253 * Z.lxor prev (Z.shiftr prev 30) + i) in
      w :: init_words w (i + 1) c
  end.

Definition init_genrand (s : Z) : list Z :=
  u32 s :: init_words (u32 s) 1 (N - 1).

(** [if (i >= N) { mt[0] = mt[N-1]; i = 1; }] *)
Definition wrap (mt : list Z) (i : nat) : list Z * nat :=
  if (N <=? i)%nat then (set mt 0 (get mt (N - 1)), 1%nat) else (mt, i).

(** The two loops of [init_by_array]: mixing in the key, then the indices. *)
Fixpoint mix_key (key : list Z) (k : nat) (mt : list Z) (i j : nat)
    : list Z * nat :=
  match k with
  | O => (mt, i)
  | S k' =>
      let prev := get mt (i - 1) in
      let v :=
        u32 (Z.lxor (get mt i) (Z.lxor prev (Z.shiftr prev 30) * 1664525)
             + get key j + Z.of_nat j) in
      let (mt', i') := wrap (set mt i v) (S i) in
      mix_key key k' mt' i' (if (List.length key <=? S j)%nat then O else S j)
  end.

Fixpoint mix_index (k : nat) (mt : list Z) (i : nat) : list Z :=
  match k with
  | O => mt
  | S k' =>
      let prev := get mt (i - 1) in
      let v :=
        u32 (Z.lxor (get mt i) (Z.lxor prev (Z.shiftr prev 30) * 1566083941)
             - Z.of_nat i) in
      let (mt', i') := wrap (set mt i v) (S i) in
      mix_index k' mt' i'
  end.

Definition init_by_array (key : list Z) : state :=
  let (mt1, i) :=
    mix_key key (Nat.max N (List.length key)) (init_genrand 19650218) 1 0 in
  State (set (mix_index (N - 1) mt1 i) 0 0x80000000) N.

(** The 32-bit words of a non-negative integer, least significant first. *)
Fixpoint key_words (fuel : nat) (a : Z) : list Z :=
  match fuel with
  | O => [u32 a]
  | S f => if a <? 2 ^ 32 then [a] else u32 a :: key_words f (Z.shiftr a 32)
  end.

Definition seed (a : Z) : state :=
  init_by_array (key_words (Z.to_nat (Z.log2 (Z.abs a))) (Z.abs a)).

(** Regeneration of the 624 words, in place and in order, as in
    [genrand_uint32]. *)
Definition twist_word (mt : list Z) (kk : nat) : Z :=
  let y := Z.lor (Z.land (get mt kk) UPPER_MASK)
                 (Z.land (get mt (S kk mod N)) LOWER_MASK) in
  Z.lxor (Z.lxor (get mt ((kk + M) mod N)) (Z.shiftr y 1))
         (if Z.odd y then MATRIX_A else 0).

Fixpoint twist_from (mt : list Z) (kk count : nat) : list Z :=
  match count with
  | O => mt
  | S c => twist_from (set mt kk (twist_word mt kk)) (S kk) c
  end.

Definition temper (y : Z) : Z :=
  let y := Z.lxor y (Z.shiftr y 11) in
  let y := Z.lxor y (Z.land (Z.shiftl y 7) 0x9d2c5680) in
  let y := Z.lxor y (Z.land (Z.shiftl y 15) 0xefc60000) in
  Z.lxor y (Z.shiftr y 18).

Definition genrand_uint32 (s : state) : Z * state :=
  let s' :=
    if (N <=? index s)%nat then State (twist_from (mt s) 0 N) 0 else s in
  (temper (get (mt s') (index s')), State (mt s') (S (index s'))).

(** [random.random()]: [(a * 2^26 + b) / 2^53] with [a], [b] the top 27 and
    26 bits of two successive words. *)
Definition random (s : state) : float * state :=
  let (a, s1) := genrand_uint32 s in
  let (b, s2) := genrand_uint32 s1 in
  ((float_of_int (Z.shiftr a 5 * 67108864 + Z.shiftr b 6) * 0x1p-53)%float,
   s2).

End MT19937.

(** A stand-in for the reference integrator: the midpoint rule on one panel,
    with a zero error estimate. *)
Definition quad_midpoint (func : float -> outcome float) (a b : float)
    : outcome (float * float) :=
  match func ((a + b) / 2)%float with
  | Return v => Return (((b - a) * v)%float, 0%float)
  | Raise e => Raise e
  end.

(** Stand-ins for the drawing: with a [func] that takes numpy arrays it comes
    to its end; with one that takes numbers only ([math.sqrt], say) the call
    [func(x)] on the array raises TypeError. *)
Definition draw_elementwise (func : float -> outcome float) (xmax : pynum)
    : outcome unit := Return tt.

Definition draw_scalar_only (func : float -> outcome float) (xmax : pynum)
    : outcome unit := Raise TypeError.

(** ** Sample inputs for concrete runs *)

(** A process whose generator is in the state [random.seed(0)] leaves, with
    nothing printed yet. *)
Definition demo_world : world MT19937.state := World (MT19937.seed 0) [].

(** The float Python reads [1e200] as. *)
Definition huge : float := 0x1.4e718d7d7625ap+664%float.

(** [lambda x: x] *)
Definition func_identity (x : float) : outcome float := Return x.

(** [lambda x: x / 2] *)
Definition func_half (x : float) : outcome float := Return (x / 2)%float.

(** [lambda x: 0.0] *)
Definition func_zero (x : float) : outcome float := Return 0%float.

(** A function that raises StopIteration, as [next] on an exhausted iterator
    does. *)
Definition func_exhausted (x : float) : outcome float := Raise StopIteration.

(** A function that raises below one half and is the identity above. *)
Definition func_partial (x : float) : outcome float :=
  if (x <? 0.5)%float then Raise (FunctionFault "math domain error")
  else Return x.

(** ** Draws, intervals and further sample inputs *)

(** The generator state after [k] calls of [random.random()]. *)
Definition advance {rng : Type} (random_random : rng -> float * rng)
    (k : nat) (g : rng) : rng :=
  Nat.iter k (fun s => snd (random_random s)) g.

(** The first [k] values [random.random()] returns from state [g]. *)
Fixpoint draws {rng : Type} (random_random : rng -> float * rng)
    (k : nat) (g : rng) : list float :=
  match k with
  | O => []
  | S k' => fst (random_random g) :: draws random_random k' (snd (random_random g))
  end.

(** [0 <= u <= 1] *)
Definition in_unit (u : float) : bool := ((0 <=? u) && (u <=? 1))%float.

(** [0 <= v <= bound] *)
Definition within (bound v : float) : bool := ((0 <=? v) && (v <=? bound))%float.

(** A float that is a zero, an infinity or a finite number of sign [s]
    (so not a NaN), in canonical form. *)
Definition signed (s : bool) (x : spec_float) : Prop :=
  x = S754_zero s \/ x = S754_infinity s \/
  exists p e, x = S754_finite s p e /\ valid_binary x = true.

(** [lambda x: 3.0] *)
Definition func_three (x : float) : outcome float := Return 3%float.

(** [lambda x: -1.0] *)
Definition func_below (x : float) : outcome float := Return (-1)%float.

(** The identity on the non-negative numbers, raising on the negative ones. *)
Definition func_guarded (x : float) : outcome float :=
  if (x <? 0)%float then Raise (FunctionFault "math domain error")
  else Return x.

(** ** Mixed integer and float arithmetic of the Python runtime *)

Module PyArith.

(** [float(n)] where Python converts an int operand: an int beyond the float
    range raises OverflowError. *)
Definition to_float (v : pynum) : outcome float :=
  match v with
  | PyFloat f => Return f
  | PyInt n =>
      let f := float_of_int n in
      if is_infinity f then Raise OverflowError else Return f
  end.

Definition float_op (op : float -> float -> float) (x y : pynum)
    : outcome pynum :=
  match to_float x with
  | Raise e => Raise e
  | Return a =>
      match to_float y with
      | Raise e => Raise e
      | Return b => Return (PyFloat (op a b))
      end
  end.

(** [x * y] *)
Definition mul (x y : pynum) : outcome pynum :=
  match x, y with
  | PyInt a, PyInt b => Return (PyInt (a * b))
  | _, _ => float_op PrimFloat.mul x y
  end.

(** [x + y] *)
Definition add (x y : pynum) : outcome pynum :=
  match x, y with
  | PyInt a, PyInt b => Return (PyInt (a + b))
  | _, _ => float_op PrimFloat.add x y
  end.

(** [x / y] *)
Definition truediv (x y : pynum) : outcome pynum :=
  match x, y with
  | PyInt a, PyInt b =>
      match int_truediv a b with
      | Return q => Return (PyFloat q)
      | Raise e => Raise e
      end
  | _, _ =>
      match to_float x with
      | Raise e => Raise e
      | Return a =>
          match to_float y with
          | Raise e => Raise e
          | Return b =>
              match float_truediv a b with
              | Return q => Return (PyFloat q)
              | Raise e => Raise e
              end
          end
      end
  end.

End PyArith.

(** ** The production plan (task1.py) *)

Module Production.

Definition WATER_AVAILABLE : Z := 100.
Definition SUGAR_AVAILABLE : Z := 50.
Definition LEMON_JUICE_AVAILABLE : Z := 30.
Definition FRUIT_PUREE_AVAILABLE : Z := 40.

Definition WATER_PER_LEMONADE : Z := 2.
Definition SUGAR_PER_LEMONADE : Z := 1.
Definition LEMON_JUICE_PER_LEMONADE : Z := 1.
Definition FRUIT_PUREE_PER_LEMONADE : Z := 0.
Definition WATER_PER_JUICE : Z := 1.
Definition SUGAR_PER_JUICE : Z := 0.
Definition FRUIT_PUREE_PER_JUICE : Z := 2.
Definition LEMON_JUICE_PER_JUICE : Z := 0.

(** *** The model handed to the solver *)

(** [pulp.LpVariable(name, lowBound=..., cat='Integer')] *)
Record LpVariable : Type :=
  { var_name : string; lowBound : Z; integer : bool }.

(** [per_juice * juice + per_lemonade * lemonade <= bound, name] *)
Record LpConstraint : Type :=
  { per_juice : Z; per_lemonade : Z; bound : Z; constraint_name : string }.

(** [pulp.LpProblem(name, pulp.LpMaximize)] with its objective
    [of_juice * juice + of_lemonade * lemonade] and its constraints, in the
    order they were added. *)
Record LpProblem : Type :=
  { problem_name : string;
    maximize : bool;
    juice_var : LpVariable;
    lemonade_var : LpVariable;
    of_juice : Z;
    of_lemonade : Z;
    objective_name : string;
    constraints : list LpConstraint }.

(** Lines 33-69. *)
Definition production_model : LpProblem :=
  {| problem_name := "Maximize_Production";
     maximize := true;
     juice_var := {| var_name := "Juice"; lowBound := 0; integer := true |};
     lemonade_var :=
       {| var_name := "Lemonade"; lowBound := 0; integer := true |};
     of_juice := 1;
     of_lemonade := 1;
     objective_name := "Total_Products";
     constraints :=
       [ {| per_juice := WATER_PER_JUICE; per_lemonade := WATER_PER_LEMONADE;
            bound := WATER_AVAILABLE; constraint_name := "Water_Constraint" |};
         {| per_juice := SUGAR_PER_JUICE; per_lemonade := SUGAR_PER_LEMONADE;
            bound := SUGAR_AVAILABLE; constraint_name := "Sugar_Constraint" |};
         {| per_juice := LEMON_JUICE_PER_JUICE;
            per_lemonade := LEMON_JUICE_PER_LEMONADE;
            bound := LEMON_JUICE_AVAILABLE;
            constraint_name := "Lemon_Juice_Constraint" |};
         {| per_juice := FRUIT_PUREE_PER_JUICE;
            per_lemonade := FRUIT_PUREE_PER_LEMONADE;
            bound := FRUIT_PUREE_AVAILABLE;
            constraint_name := "Fruit_Puree_Constraint" |} ] |}.

(** What the model means: an integer plan is feasible when it respects the
    lower bounds and every constraint. *)
Definition holds (c : LpConstraint) (juice lemonade : Z) : bool :=
  per_juice c * juice + per_lemonade c * lemonade <=? bound c.

Definition feasible (p : LpProblem) (juice lemonade : Z) : bool :=
  (lowBound (juice_var p) <=? juice) && (lowBound (lemonade_var p) <=? lemonade)
  && forallb (fun c => holds c juice lemonade) (constraints p).

Definition objective (p : LpProblem) (juice lemonade : Z) : Z :=
  of_juice p * juice + of_lemonade p * lemonade.

(** What [model.solve()] leaves: the status code and each variable's
    [varValue] ([None] when the solver assigned none). *)
Record Solved : Type :=
  { status_code : Z; juice_value : option pynum; lemonade_value : option pynum }.

(** [pulp.LpStatus], the names of the status codes. *)
Definition LpStatus (code : Z) : option string :=
  match code with
  | 0 => Some "Not Solved"%string
  | 1 => Some "Optimal"%string
  | -1 => Some "Infeasible"%string
  | -2 => Some "Unbounded"%string
  | -3 => Some "Undefined"%string
  | _ => None
  end.

(** The dictionary [production_optimization] returns. *)
Record result : Type :=
  { status : string; juice : pynum; lemonade : pynum }.

(** A dictionary lookup. *)
Inductive lookup (A : Type) : Type :=
  | Found (a : A)
  | KeyError (key : Z).
Arguments Found {A} a.
Arguments KeyError {A} key.

(** Lines 72-81, for a given solver. *)
Definition production_optimization (solve : LpProblem -> Solved)
    : lookup result :=
  let solved := solve production_model in
  match LpStatus (status_code solved) with
  | None => KeyError (status_code solved)
  | Some name =>
      Found {| status := name;
               juice := match juice_value solved with
                        | Some v => v
                        | None => PyInt 0
                        end;
               lemonade := match lemonade_value solved with
                           | Some v => v
                           | None => PyInt 0
                           end |}
  end.

(** *** The report *)

(** The parts of a printed line: literal text, a number formatted with
    [:.0f] or [:.1f] (kept as the float it was converted to), an integer. *)
Inductive piece : Type :=
  | Text (s : string)
  | Fixed (decimals : nat) (v : float)
  | Int (n : Z).

Definition line : Type := list piece.

(** Printing: the lines so far, and an exception or a value. *)
Definition Printer (A : Type) : Type := list line -> outcome A * list line.

Definition emit (l : line) : Printer unit :=
  fun out => (Return tt, (out ++ [l])%list).

Definition compute {A} (o : outcome A) : Printer A := fun out => (o, out).

Definition then_ {A B} (m : Printer A) (k : A -> Printer B) : Printer B :=
  fun out =>
    match m out with
    | (Return a, out') => k a out'
    | (Raise e, out') => (Raise e, out')
    end.

Definition banner : string :=
  string_of_list_ascii (repeat "="%char 50).

Definition newline : string := String "010"%char EmptyString.

(** [per_juice * result['juice'] + per_lemonade * result['lemonade']] *)
Definition resource_used (for_juice for_lemonade : Z) (r : result)
    : outcome pynum :=
  match PyArith.mul (PyInt for_juice) (juice r) with
  | Raise e => Raise e
  | Return a =>
      match PyArith.mul (PyInt for_lemonade) (lemonade r) with
      | Raise e => Raise e
      | Return b => PyArith.add a b
      end
  end.

(** [used / available * 100] *)
Definition utilisation_percent (used : pynum) (available : Z) : outcome pynum :=
  match PyArith.truediv used (PyInt available) with
  | Raise e => Raise e
  | Return q => PyArith.mul q (PyInt 100)
  end.

(** The formatting [{v:.Nf}]: the number is converted to a float first. *)
Definition fixed (decimals : nat) (v : pynum) : outcome piece :=
  match PyArith.to_float v with
  | Raise e => Raise e
  | Return f => Return (Fixed decimals f)
  end.

(** One line of lines 111-118:
    [f"  {label}: {used:.0f}/{available} units ({used/available*100:.1f}%)"]. *)
Definition utilisation_line (label : string) (used : pynum) (available : Z)
    : outcome line :=
  match fixed 0 used with
  | Raise e => Raise e
  | Return shown =>
      match utilisation_percent used available with
      | Raise e => Raise e
      | Return pct =>
          match fixed 1 pct with
          | Raise e => Raise e
          | Return share =>
              Return [Text ("  " ++ label ++ ": "); shown; Text "/";
                      Int available; Text " units ("; share; Text "%)"]
          end
      end
  end.

Local Notation "x <- m ;; k" := (then_ m (fun x => k))
  (at level 61, m at next level, right associativity).
Local Notation "m ;;; k" := (then_ m (fun _ => k))
  (at level 61, right associativity).

Definition print_results (r : result) : Printer unit :=
  emit [Text banner] ;;;
  emit [Text "PRODUCTION OPTIMIZATION RESULTS"] ;;;
  emit [Text banner] ;;;
  emit [Text "Solver Status: "; Text (status r)] ;;;
  (if String.eqb (status r) "Optimal" then
     emit [Text (newline ++ "Optimal Solution Found:")] ;;;
     shown <- compute (fixed 0 (juice r)) ;;
     emit [Text "  Juice Production:    "; shown; Text " units"] ;;;
     shown <- compute (fixed 0 (lemonade r)) ;;
     emit [Text "  Lemonade Production: "; shown; Text " units"] ;;;
     water_used <- compute (resource_used WATER_PER_JUICE WATER_PER_LEMONADE r) ;;
     sugar_used <- compute (resource_used SUGAR_PER_JUICE SUGAR_PER_LEMONADE r) ;;
     lemon_juice_used <-
       compute (resource_used LEMON_JUICE_PER_JUICE LEMON_JUICE_PER_LEMONADE r) ;;
     fruit_puree_used <-
       compute (resource_used FRUIT_PUREE_PER_JUICE FRUIT_PUREE_PER_LEMONADE r) ;;
     emit [Text (newline ++ "Resource Utilization:")] ;;;
     l <- compute (utilisation_line "Water" water_used WATER_AVAILABLE) ;;
     emit l ;;;
     l <- compute (utilisation_line "Sugar" sugar_used SUGAR_AVAILABLE) ;;
     emit l ;;;
     l <- compute (utilisation_line "Lemon Juice" lemon_juice_used
                     LEMON_JUICE_AVAILABLE) ;;
     emit l ;;;
     l <- compute (utilisation_line "Fruit Puree" fruit_puree_used
                     FRUIT_PUREE_AVAILABLE) ;;
     emit l
   else
     emit [Text (newline ++ "No optimal solution found!")]) ;;;
  emit [Text banner].

(** Lines 124-127; a status code outside [LpStatus] ends in KeyError before
    anything is printed. *)
Definition main (solve : LpProblem -> Solved)
    : lookup (outcome unit * list line) :=
  match production_optimization solve with
  | KeyError k => KeyError k
  | Found r => Found (print_results r [])
  end.


(** The percentages a report shows: the numbers printed with one decimal. *)
Definition percentages (out : list line) : list float :=
  flat_map
    (fun l =>
       flat_map
         (fun p => match p with Fixed 1 v => [v] | _ => [] end) l)
    out.

(** The report for the plan of 20 juice and 30 lemonade. *)
Definition optimal_report : list line :=
  [ [Text banner];
    [Text "PRODUCTION OPTIMIZATION RESULTS"];
    [Text banner];
    [Text "Solver Status: "; Text "Optimal"];
    [Text (newline ++ "Optimal Solution Found:")];
    [Text "  Juice Production:    "; Fixed 0 20; Text " units"];
    [Text "  Lemonade Production: "; Fixed 0 30; Text " units"];
    [Text (newline ++ "Resource Utilization:")];
    [Text "  Water: "; Fixed 0 80; Text "/"; Int 100; Text " units (";
     Fixed 1 80; Text "%)"];
    [Text "  Sugar: "; Fixed 0 30; Text "/"; Int 50; Text " units (";
     Fixed 1 60; Text "%)"];
    [Text "  Lemon Juice: "; Fixed 0 30; Text "/"; Int 30; Text " units (";
     Fixed 1 100; Text "%)"];
    [Text "  Fruit Puree: "; Fixed 0 40; Text "/"; Int 40; Text " units (";
     Fixed 1 100; Text "%)"];
    [Text banner] ].

(** The value a solver reports for an integer quantity [n]: the int itself
    or the float nearest to it. *)
Definition represents (v : pynum) (n : Z) : Prop :=
  v = PyInt n \/ v = PyFloat (float_of_int n).

(** The check a report of an optimal plan is put to: printed to the end, in
    13 lines, its four percentages between 0 and 100. *)
Definition well_formed_report (run : outcome unit * list line) : bool :=
  match run with
  | (Return _, report) =>
      (List.length report =? 13)%nat
      && (List.length (percentages report) =? 4)%nat
      && forallb (within 100) (percentages report)
  | (Raise _, _) => false
  end.

(** A solver that answers with the plan of 20 juice and 30 lemonade. *)
Definition solve_optimally (p : LpProblem) : Solved :=
  {| status_code := 1;
     juice_value := Some (PyFloat 20);
     lemonade_value := Some (PyFloat 30) |}.

(** A solver that finds the model infeasible. *)
Definition solve_infeasible (p : LpProblem) : Solved :=
  {| status_code := -1; juice_value := None; lemonade_value := None |}.

End Production.

(** ** Facts about binary64 rounding

    The specification of the primitive floats ([SpecFloat]) is executable but
    comes without a theory; this module proves what the bounds on the
    estimate need: rounding to nearest never crosses a representable
    bound. *)

Module FloatFacts.

(** The value of mantissa [m] at exponent [e]. *)
Definition F2R (m e : Z) : R := (IZR m * powerRZ 2 e)%R.

(** A shifted mantissa none of whose dropped bits was set. *)
Definition exact_record (mrs : shr_record) : Prop :=
  shr_r mrs = false /\ shr_s mrs = false.

(** [m] at exponent [e] is in canonical binary64 form. *)
Definition canon (m e : Z) : Prop := fexp prec emax (Zdigits2 m + e) = e.

Lemma bpow_pos e : (0 < powerRZ 2 e)%R.
Proof. apply powerRZ_lt; lra. Qed.

Lemma bpow_add a b : powerRZ 2 (a + b) = (powerRZ 2 a * powerRZ 2 b)%R.
Proof. apply powerRZ_add; lra. Qed.

Lemma bpow_nonneg k : 0 <= k -> powerRZ 2 k = IZR (2 ^ k).
Proof.
  intros Hk. rewrite <- (Z2Nat.id k Hk) at 1.
  rewrite <- pow_powerRZ, pow_IZR, Z2Nat.id by assumption. reflexivity.
Qed.

Lemma F2R_shift m e k : 0 <= k -> F2R m (e + k) = F2R (m * 2 ^ k) e.
Proof.
  intros Hk. unfold F2R. rewrite bpow_add, (bpow_nonneg k Hk), mult_IZR. ring.
Qed.

Lemma F2R_le a b e : a <= b -> (F2R a e <= F2R b e)%R.
Proof.
  intros H. unfold F2R. apply Rmult_le_compat_r.
  - left; apply bpow_pos.
  - now apply IZR_le.
Qed.

Lemma F2R_le_inv a b e : (F2R a e <= F2R b e)%R -> a <= b.
Proof.
  unfold F2R. intros H. apply le_IZR.
  apply Rmult_le_reg_r with (powerRZ 2 e); [apply bpow_pos | exact H].
Qed.

Lemma F2R_lt_inv a b e : (F2R a e < F2R b e)%R -> a < b.
Proof.
  unfold F2R. intros H. apply lt_IZR.
  apply Rmult_lt_reg_r with (powerRZ 2 e); [apply bpow_pos | exact H].
Qed.

Lemma F2R_mul a b ea eb : F2R (a * b) (ea + eb) = (F2R a ea * F2R b eb)%R.
Proof. unfold F2R. rewrite bpow_add, mult_IZR. ring. Qed.

(** Number of binary digits. *)
Lemma digits2_pos_bounds p :
  2 ^ (Zpos (digits2_pos p) - 1) <= Zpos p < 2 ^ Zpos (digits2_pos p).
Proof.
  induction p as [p IH | p IH |]; simpl digits2_pos.
  - rewrite Pos2Z.inj_succ.
    replace (Z.succ (Zpos (digits2_pos p)) - 1) with (Z.succ (Zpos (digits2_pos p) - 1)) by lia.
    rewrite !Z.pow_succ_r by lia. lia.
  - rewrite Pos2Z.inj_succ.
    replace (Z.succ (Zpos (digits2_pos p)) - 1) with (Z.succ (Zpos (digits2_pos p) - 1)) by lia.
    rewrite !Z.pow_succ_r by lia. lia.
  - simpl. lia.
Qed.

Lemma Zdigits2_bounds m : 0 < m -> 2 ^ (Zdigits2 m - 1) <= m < 2 ^ Zdigits2 m.
Proof. destruct m; try lia. intros _. apply digits2_pos_bounds. Qed.

Lemma Zdigits2_nonneg m : 0 <= Zdigits2 m.
Proof. destruct m; simpl; lia. Qed.

Lemma Zdigits2_pos m : 0 < m -> 0 < Zdigits2 m.
Proof. destruct m; simpl; lia. Qed.

(** [d] is the digit count of [m] as soon as [2^(d-1) <= m < 2^d]. *)
Lemma Zdigits2_unique m d : 0 < d -> 2 ^ (d - 1) <= m < 2 ^ d -> Zdigits2 m = d.
Proof.
  intros Hd [Hlo Hhi].
  assert (Hm : 0 < m) by (pose proof (Z.pow_pos_nonneg 2 (d - 1)); lia).
  pose proof (Zdigits2_bounds m Hm) as [Blo Bhi].
  pose proof (Zdigits2_pos m Hm) as Hp.
  destruct (Z.lt_trichotomy (Zdigits2 m) d) as [H | [H | H]]; [exfalso | exact H | exfalso].
  - assert (2 ^ Zdigits2 m <= 2 ^ (d - 1)) by (apply Z.pow_le_mono_r; lia). lia.
  - assert (2 ^ d <= 2 ^ (Zdigits2 m - 1)) by (apply Z.pow_le_mono_r; lia). lia.
Qed.

Lemma Zdigits2_ge m k : 0 <= k -> 2 ^ k <= m -> k + 1 <= Zdigits2 m.
Proof.
  intros Hk H.
  assert (Hm : 0 < m) by (pose proof (Z.pow_pos_nonneg 2 k); lia).
  pose proof (Zdigits2_bounds m Hm) as [_ Bhi].
  destruct (Z_lt_le_dec (Zdigits2 m) (k + 1)) as [Hlt | Hge]; [exfalso | exact Hge].
  assert (2 ^ Zdigits2 m <= 2 ^ k) by (apply Z.pow_le_mono_r; lia). lia.
Qed.

Lemma Zdigits2_div m k :
  0 < m -> 0 <= k -> 0 < m / 2 ^ k -> Zdigits2 (m / 2 ^ k) = Zdigits2 m - k.
Proof.
  intros Hm Hk Hq.
  pose proof (Zdigits2_bounds m Hm) as [Blo Bhi].
  assert (Hp : 0 < 2 ^ k) by (apply Z.pow_pos_nonneg; lia).
  assert (Hkd : k < Zdigits2 m).
  { destruct (Z_lt_le_dec k (Zdigits2 m)) as [H | H]; [exact H | exfalso].
    assert (2 ^ Zdigits2 m <= 2 ^ k) by (apply Z.pow_le_mono_r; [lia | lia]).
    rewrite Z.div_small in Hq by lia. lia. }
  apply Zdigits2_unique; [lia | split].
  - apply Z.div_le_lower_bound; [lia |].
    rewrite <- Z.pow_add_r by lia.
    replace (k + (Zdigits2 m - k - 1)) with (Zdigits2 m - 1) by lia. exact Blo.
  - apply Z.div_lt_upper_bound; [lia |].
    rewrite <- Z.pow_add_r by lia.
    replace (k + (Zdigits2 m - k)) with (Zdigits2 m) by lia. exact Bhi.
Qed.


(** *** Right shifts of a mantissa with its round and sticky bits *)

Lemma shr_1_spec mrs :
  0 <= shr_m mrs ->
  shr_m (shr_1 mrs) = shr_m mrs / 2 /\
  (exact_record mrs -> shr_m mrs mod 2 = 0 -> exact_record (shr_1 mrs)).
Proof.
  destruct mrs as [m r s]; simpl shr_m. intros Hm.
  destruct m as [| p | p]; try lia.
  - split; [reflexivity |]. intros [Hr Hs] _; simpl in *; subst; split; reflexivity.
  - destruct p as [p | p |]; simpl shr_m.
    + split; [rewrite Pos2Z.inj_xI; apply Z.div_unique with 1; lia |].
      intros _ H. rewrite Pos2Z.inj_xI in H.
      replace (2 * Zpos p + 1) with (1 + Zpos p * 2) in H by lia.
      rewrite Z.mod_add in H by lia. discriminate H.
    + split; [rewrite Pos2Z.inj_xO; apply Z.div_unique with 0; lia |].
      intros [Hr Hs] _; simpl in *; subst; split; reflexivity.
    + split; [reflexivity |]. intros _ H. discriminate H.
Qed.

Lemma iter_shr_1_spec p : forall mrs,
  0 <= shr_m mrs ->
  shr_m (SpecFloat.iter_pos shr_1 p mrs) = shr_m mrs / 2 ^ Zpos p /\
  (exact_record mrs -> shr_m mrs mod 2 ^ Zpos p = 0 ->
   exact_record (SpecFloat.iter_pos shr_1 p mrs)).
Proof.
  assert (Hcomp : forall a b (f g : shr_record -> shr_record),
    0 < a -> 0 < b ->
    (forall mrs, 0 <= shr_m mrs ->
       shr_m (f mrs) = shr_m mrs / 2 ^ a /\
       (exact_record mrs -> shr_m mrs mod 2 ^ a = 0 -> exact_record (f mrs))) ->
    (forall mrs, 0 <= shr_m mrs ->
       shr_m (g mrs) = shr_m mrs / 2 ^ b /\
       (exact_record mrs -> shr_m mrs mod 2 ^ b = 0 -> exact_record (g mrs))) ->
    forall mrs, 0 <= shr_m mrs ->
       shr_m (g (f mrs)) = shr_m mrs / 2 ^ (a + b) /\
       (exact_record mrs -> shr_m mrs mod 2 ^ (a + b) = 0 -> exact_record (g (f mrs)))).
  { intros a b f g Ha Hb Hf Hg mrs Hm.
    destruct (Hf mrs Hm) as [Fm Fe].
    assert (Pa : 0 < 2 ^ a) by (apply Z.pow_pos_nonneg; lia).
    assert (Pb : 0 < 2 ^ b) by (apply Z.pow_pos_nonneg; lia).
    assert (Hfm : 0 <= shr_m (f mrs)) by (rewrite Fm; apply Z.div_pos; lia).
    destruct (Hg (f mrs) Hfm) as [Gm Ge].
    rewrite Z.pow_add_r by lia.
    split.
    - rewrite Gm, Fm. apply Z.div_div; lia.
    - intros He Hmod.
      apply Z.mod_divide in Hmod; [| lia]. destruct Hmod as [c Hc].
      assert (Hma : shr_m mrs mod 2 ^ a = 0).
      { rewrite Hc. replace (c * (2 ^ a * 2 ^ b)) with (c * 2 ^ b * 2 ^ a) by ring.
        apply Z.mod_mul; lia. }
      apply Ge; [apply Fe; assumption |].
      rewrite Fm, Hc. replace (c * (2 ^ a * 2 ^ b)) with (c * 2 ^ b * 2 ^ a) by ring.
      rewrite Z.div_mul by lia. apply Z.mod_mul; lia. }
  assert (H1 : forall mrs, 0 <= shr_m mrs ->
       shr_m (shr_1 mrs) = shr_m mrs / 2 ^ 1 /\
       (exact_record mrs -> shr_m mrs mod 2 ^ 1 = 0 -> exact_record (shr_1 mrs))).
  { intros mrs Hm. change (2 ^ 1) with 2. now apply shr_1_spec. }
  induction p as [p IH | p IH |]; intros mrs Hm.
  - simpl SpecFloat.iter_pos.
    replace (Zpos p~1) with (1 + Zpos p + Zpos p) by lia.
    apply (Hcomp (1 + Zpos p) (Zpos p)
             (fun x => SpecFloat.iter_pos shr_1 p (shr_1 x)) (SpecFloat.iter_pos shr_1 p)); try lia; auto.
    apply (Hcomp 1 (Zpos p) shr_1 (SpecFloat.iter_pos shr_1 p)); try lia; auto.
  - simpl SpecFloat.iter_pos.
    replace (Zpos p~0) with (Zpos p + Zpos p) by lia.
    apply (Hcomp (Zpos p) (Zpos p) (SpecFloat.iter_pos shr_1 p) (SpecFloat.iter_pos shr_1 p)); try lia; auto.
  - simpl SpecFloat.iter_pos. now apply H1.
Qed.

Lemma loc_of_record_of_loc m l : loc_of_shr_record (shr_record_of_loc m l) = l.
Proof. destruct l as [| []]; reflexivity. Qed.

Lemma shr_m_record_of_loc m l : shr_m (shr_record_of_loc m l) = m.
Proof. destruct l as [| []]; reflexivity. Qed.

Lemma loc_of_exact_record mrs : exact_record mrs -> loc_of_shr_record mrs = loc_Exact.
Proof. destruct mrs as [m r s]; intros [Hr Hs]; simpl in *; subst; reflexivity. Qed.

(** [shr_fexp] when the operand is not coarser than its target exponent:
    the exponent becomes [fexp (digits + e)], the mantissa is divided, and
    an exact operand whose dropped bits are zero stays exact. *)
Lemma shr_fexp_spec m e l :
  0 <= m ->
  e <= fexp prec emax (Zdigits2 m + e) ->
  let k := fexp prec emax (Zdigits2 m + e) - e in
  let '(mrs, e') := shr_fexp prec emax m e l in
  e' = e + k /\ shr_m mrs = m / 2 ^ k /\
  (l = loc_Exact -> m mod 2 ^ k = 0 -> loc_of_shr_record mrs = loc_Exact).
Proof.
  intros Hm Hk. unfold shr_fexp, shr.
  destruct (fexp prec emax (Zdigits2 m + e) - e) as [| p | p] eqn:Ek; try lia.
  - cbv zeta. rewrite shr_m_record_of_loc, loc_of_record_of_loc.
    change (2 ^ 0) with 1. rewrite Z.div_1_r. repeat split; try lia. auto.
  - cbv zeta.
    assert (H0 : 0 <= shr_m (shr_record_of_loc m l)) by (rewrite shr_m_record_of_loc; lia).
    destruct (iter_shr_1_spec p _ H0) as [Im Ie].
    rewrite shr_m_record_of_loc in Im, Ie.
    repeat split; [exact Im |].
    intros Hl Hmod. apply loc_of_exact_record, Ie; [| exact Hmod].
    subst l; split; reflexivity.
Qed.

Lemma round_nearest_even_bounds m l :
  m <= round_nearest_even m l <= m + 1.
Proof.
  destruct l as [| []]; simpl; try lia. destruct (Z.even m); lia.
Qed.


(** *** Canonical binary64 mantissa/exponent pairs *)

Lemma fexp_eq x : fexp prec emax x = Z.max (x - 53) (-1074).
Proof. reflexivity. Qed.

Lemma canonical_mantissa_canon p e :
  canonical_mantissa prec emax p e = true <-> canon (Zpos p) e.
Proof. unfold canonical_mantissa, canon. simpl Zdigits2. apply Z.eqb_eq. Qed.

Lemma canon_cases m e :
  canon m e ->
  (e = -1074 /\ Zdigits2 m <= 53) \/ (-1074 < e /\ Zdigits2 m = 53).
Proof. unfold canon. rewrite fexp_eq. lia. Qed.

Lemma canon_lt m e : 0 < m -> canon m e -> m < 2 ^ 53.
Proof.
  intros Hm Hc. pose proof (Zdigits2_bounds m Hm) as [_ Hhi].
  assert (2 ^ Zdigits2 m <= 2 ^ 53).
  { apply Z.pow_le_mono_r; [lia |]. destruct (canon_cases m e Hc); lia. }
  lia.
Qed.

Lemma canon_normal m e : 0 < m -> canon m e -> -1074 < e -> 2 ^ 52 <= m.
Proof.
  intros Hm Hc He. pose proof (Zdigits2_bounds m Hm) as [Hlo _].
  destruct (canon_cases m e Hc) as [[? _] | [_ Hd]]; [lia |].
  rewrite Hd in Hlo. exact Hlo.
Qed.

Lemma canon_min_exp m e : canon m e -> -1074 <= e.
Proof. intros Hc. destruct (canon_cases m e Hc); lia. Qed.

(** A canonical pair of larger exponent has the larger value. *)
Lemma canon_exp_lt_value m1 e1 m2 e2 :
  0 < m1 -> 0 < m2 -> canon m1 e1 -> canon m2 e2 -> e1 < e2 ->
  (F2R m1 e1 < F2R m2 e2)%R.
Proof.
  intros H1 H2 C1 C2 He.
  pose proof (canon_lt m1 e1 H1 C1) as L1.
  pose proof (canon_min_exp m1 e1 C1) as M1.
  pose proof (canon_normal m2 e2 H2 C2 ltac:(lia)) as N2.
  replace e2 with (e1 + (e2 - e1)) by lia.
  rewrite F2R_shift by lia.
  unfold F2R. apply Rmult_lt_compat_r; [apply bpow_pos |]. apply IZR_lt.
  assert (2 ^ 1 <= 2 ^ (e2 - e1)) by (apply Z.pow_le_mono_r; lia).
  change (2 ^ 1) with 2 in *. change (2 ^ 52) with 4503599627370496 in *.
  change (2 ^ 53) with 9007199254740992 in *. nia.
Qed.

Lemma SFleb_of_value p1 e1 p2 e2 :
  canon (Zpos p1) e1 -> canon (Zpos p2) e2 ->
  (F2R (Zpos p1) e1 <= F2R (Zpos p2) e2)%R ->
  SFleb (S754_finite false p1 e1) (S754_finite false p2 e2) = true.
Proof.
  intros C1 C2 Hv. unfold SFleb, SFcompare.
  destruct (Z.compare_spec e1 e2) as [He | He | He].
  - subst e2. apply F2R_le_inv in Hv.
    change (Pos.compare_cont Eq p1 p2) with (Pos.compare p1 p2).
    destruct (Pos.compare_spec p1 p2); try reflexivity. lia.
  - reflexivity.
  - exfalso.
    pose proof (canon_exp_lt_value (Zpos p2) e2 (Zpos p1) e1
                  ltac:(lia) ltac:(lia) C2 C1 He). lra.
Qed.

Lemma value_of_SFleb p1 e1 p2 e2 :
  canon (Zpos p1) e1 -> canon (Zpos p2) e2 ->
  SFleb (S754_finite false p1 e1) (S754_finite false p2 e2) = true ->
  (F2R (Zpos p1) e1 <= F2R (Zpos p2) e2)%R.
Proof.
  intros C1 C2. unfold SFleb, SFcompare.
  destruct (Z.compare_spec e1 e2) as [He | He | He].
  - subst e2. change (Pos.compare_cont Eq p1 p2) with (Pos.compare p1 p2).
    destruct (Pos.compare_spec p1 p2) as [Hp | Hp | Hp]; intros H; try discriminate H.
    + subst; lra.
    + apply F2R_le; lia.
  - intros _. left.
    apply canon_exp_lt_value; try assumption; lia.
  - intros H; discriminate H.
Qed.


(** *** Rounding to nearest-even *)

Lemma round_exponent_mono mx ex m1 :
  0 <= mx ->
  ex <= fexp prec emax (Zdigits2 mx + ex) ->
  mx / 2 ^ (fexp prec emax (Zdigits2 mx + ex) - ex) <= m1 ->
  fexp prec emax (Zdigits2 mx + ex)
    <= fexp prec emax (Zdigits2 m1 + fexp prec emax (Zdigits2 mx + ex)).
Proof.
  intros Hm Hk H1. rewrite !fexp_eq in *.
  destruct (Z.eq_dec (Z.max (Zdigits2 mx + ex - 53) (-1074)) (-1074)) as [E | E].
  - rewrite E. lia.
  - assert (Hmx : 0 < mx).
    { destruct (Z.eq_dec mx 0) as [-> | ?]; [simpl in *; lia | lia]. }
    pose proof (Zdigits2_bounds mx Hmx) as [Hlo _].
    assert (Ee : Z.max (Zdigits2 mx + ex - 53) (-1074) = Zdigits2 mx + ex - 53) by lia.
    rewrite Ee in *.
    replace (Zdigits2 mx + ex - 53 - ex) with (Zdigits2 mx - 53) in H1 by lia.
    assert (Hq : 2 ^ 52 <= mx / 2 ^ (Zdigits2 mx - 53)).
    { apply Z.div_le_lower_bound; [apply Z.pow_pos_nonneg; lia |].
      rewrite <- Z.pow_add_r by lia.
      replace (Zdigits2 mx - 53 + 52) with (Zdigits2 mx - 1) by lia. exact Hlo. }
    assert (53 <= Zdigits2 m1) by (apply (Zdigits2_ge m1 52); lia).
    lia.
Qed.

(** What [binary_round_aux] computes on an operand that is not coarser than
    its target exponent. *)
Lemma round_aux_spec sx mx ex lx :
  0 <= mx ->
  ex <= fexp prec emax (Zdigits2 mx + ex) ->
  let e1 := fexp prec emax (Zdigits2 mx + ex) in
  let mt := mx / 2 ^ (e1 - ex) in
  exists m1,
    mt <= m1 <= mt + 1 /\
    (lx = loc_Exact -> mx mod 2 ^ (e1 - ex) = 0 -> m1 = mt) /\
    let e2 := fexp prec emax (Zdigits2 m1 + e1) in
    e1 <= e2 /\
    binary_round_aux prec emax sx mx ex lx =
      match m1 / 2 ^ (e2 - e1) with
      | Z0 => S754_zero sx
      | Zpos p =>
          if e2 <=? emax - prec then S754_finite sx p e2 else S754_infinity sx
      | Zneg _ => S754_nan
      end.
Proof.
  intros Hm Hk e1 mt. unfold binary_round_aux.
  pose proof (shr_fexp_spec mx ex lx Hm Hk) as S1. cbv zeta in S1.
  destruct (shr_fexp prec emax mx ex lx) as [mrs1 e1'].
  destruct S1 as (Ee1 & Em1 & Ex1).
  fold e1 in Ee1, Em1, Ex1.
  replace e1' with e1 in * by lia.
  set (m1 := round_nearest_even (shr_m mrs1) (loc_of_shr_record mrs1)).
  assert (Hmt : 0 <= mt) by (apply Z.div_pos; [lia | apply Z.pow_pos_nonneg; lia]).
  assert (B1 : mt <= m1 <= mt + 1).
  { unfold m1. rewrite Em1. apply round_nearest_even_bounds. }
  assert (Hk2 : e1 <= fexp prec emax (Zdigits2 m1 + e1)).
  { apply round_exponent_mono; try assumption. fold e1. fold mt. lia. }
  pose proof (shr_fexp_spec m1 e1 loc_Exact ltac:(lia) Hk2) as S2. cbv zeta in S2.
  destruct (shr_fexp prec emax m1 e1 loc_Exact) as [mrs2 e2'].
  destruct S2 as (Ee2 & Em2 & _).
  exists m1. split; [exact B1 |]. split.
  - intros Hl Hmod. unfold m1. rewrite (Ex1 Hl Hmod). simpl. exact Em1.
  - cbv zeta. split; [exact Hk2 |].
    rewrite Em2.
    replace e2' with (fexp prec emax (Zdigits2 m1 + e1)) by lia.
    reflexivity.
Qed.

(** The mantissa and exponent the second normalisation produces are
    canonical, and the value does not grow. *)
Lemma renormalise_canon m1 e1 p :
  let e2 := fexp prec emax (Zdigits2 m1 + e1) in
  0 <= m1 -> e1 <= e2 -> m1 / 2 ^ (e2 - e1) = Zpos p ->
  canon (Zpos p) e2 /\ (F2R (Zpos p) e2 <= F2R m1 e1)%R.
Proof.
  intros e2 Hm He Hq.
  assert (Hp : 0 < 2 ^ (e2 - e1)) by (apply Z.pow_pos_nonneg; lia).
  assert (Hm1 : 0 < m1).
  { destruct (Z.eq_dec m1 0) as [-> | ?]; [rewrite Z.div_0_l in Hq; lia | lia]. }
  split.
  - unfold canon. rewrite <- Hq.
    rewrite Zdigits2_div by (try lia; rewrite Hq; lia).
    replace (Zdigits2 m1 - (e2 - e1) + e2) with (Zdigits2 m1 + e1) by lia.
    reflexivity.
  - replace e2 with (e1 + (e2 - e1)) at 1 by lia.
    rewrite F2R_shift by lia. apply F2R_le.
    rewrite <- Hq. rewrite Z.mul_comm. apply Z.mul_div_le. exact Hp.
Qed.


Lemma round_aux_cases sx mx ex lx :
  0 <= mx ->
  ex <= fexp prec emax (Zdigits2 mx + ex) ->
  binary_round_aux prec emax sx mx ex lx = S754_zero sx \/
  binary_round_aux prec emax sx mx ex lx = S754_infinity sx \/
  exists p e, binary_round_aux prec emax sx mx ex lx = S754_finite sx p e /\
              canon (Zpos p) e /\ e <= emax - prec.
Proof.
  intros Hm Hk.
  destruct (round_aux_spec sx mx ex lx Hm Hk) as (m1 & B1 & _ & He & ->).
  assert (Hmt : 0 <= mx / 2 ^ (fexp prec emax (Zdigits2 mx + ex) - ex))
    by (apply Z.div_pos; [lia | apply Z.pow_pos_nonneg; lia]).
  destruct (m1 / 2 ^ (fexp prec emax (Zdigits2 m1 + fexp prec emax (Zdigits2 mx + ex))
                      - fexp prec emax (Zdigits2 mx + ex))) as [| p | p] eqn:Eq.
  - left; reflexivity.
  - destruct (Z.leb_spec (fexp prec emax (Zdigits2 m1 + fexp prec emax (Zdigits2 mx + ex)))
                         (emax - prec)) as [Hle | Hgt].
    + right; right. eexists _, _. split; [reflexivity |]. split; [| exact Hle].
      apply (renormalise_canon m1 _ p); [lia | exact He | exact Eq].
    + right; left; reflexivity.
  - exfalso.
    assert (0 <= m1 / 2 ^ (fexp prec emax (Zdigits2 m1 + fexp prec emax (Zdigits2 mx + ex))
                           - fexp prec emax (Zdigits2 mx + ex)))
      by (apply Z.div_pos; [lia | apply Z.pow_pos_nonneg; lia]).
    lia.
Qed.

Lemma round_aux_valid sx mx ex lx :
  0 <= mx ->
  ex <= fexp prec emax (Zdigits2 mx + ex) ->
  valid_binary (binary_round_aux prec emax sx mx ex lx) = true.
Proof.
  intros Hm Hk.
  destruct (round_aux_cases sx mx ex lx Hm Hk) as [-> | [-> | (p & e & -> & Hc & He)]];
    try reflexivity.
  simpl. unfold bounded. apply andb_true_intro. split.
  - now apply canonical_mantissa_canon.
  - now apply Z.leb_le.
Qed.

(** The exponent reached by the first truncation does not exceed that of a
    canonical value bounding the operand from above. *)
Lemma truncation_exponent_le mx ex pw ew :
  0 <= mx ->
  ex <= fexp prec emax (Zdigits2 mx + ex) ->
  canon (Zpos pw) ew ->
  (F2R mx ex <= F2R (Zpos pw) ew)%R ->
  fexp prec emax (Zdigits2 mx + ex) <= ew.
Proof.
  intros Hm Hk Cw Hv.
  destruct (Z_le_gt_dec (fexp prec emax (Zdigits2 mx + ex)) ew) as [H | H]; [exact H |].
  exfalso.
  pose proof (canon_min_exp _ _ Cw) as Mw.
  pose proof (canon_lt (Zpos pw) ew ltac:(lia) Cw) as Lw.
  rewrite fexp_eq in *.
  assert (Ee : Z.max (Zdigits2 mx + ex - 53) (-1074) = Zdigits2 mx + ex - 53) by lia.
  rewrite Ee in *.
  assert (Hmx : 0 < mx).
  { destruct (Z.eq_dec mx 0) as [-> | ?]; [simpl in *; lia | lia]. }
  pose proof (Zdigits2_bounds mx Hmx) as [Hlo _].
  (* mx * 2^ex >= 2^(52 + e1) > pw * 2^ew *)
  replace ex with (ew + (ex - ew)) in Hv at 1 by lia.
  destruct (Z_le_gt_dec ew ex) as [Hex | Hex].
  - rewrite F2R_shift in Hv by lia. apply F2R_le_inv in Hv.
    assert (Hpow : 2 ^ 53 <= 2 ^ (Zdigits2 mx - 1 + (ex - ew)))
      by (apply Z.pow_le_mono_r; lia).
    pose proof (Zdigits2_pos mx Hmx).
    rewrite Z.pow_add_r in Hpow by lia.
    assert (0 < 2 ^ (ex - ew)) by (apply Z.pow_pos_nonneg; lia).
    nia.
  - replace (ew + (ex - ew)) with ex in Hv by lia.
    replace ew with (ex + (ew - ex)) in Hv by lia.
    rewrite F2R_shift in Hv by lia. apply F2R_le_inv in Hv.
    assert (Hpow : 2 ^ (Zdigits2 mx - 1) = 2 ^ (ew - ex) * 2 ^ (Zdigits2 mx - 1 - (ew - ex))).
    { rewrite <- Z.pow_add_r by lia. f_equal. lia. }
    assert (2 ^ 53 <= 2 ^ (Zdigits2 mx - 1 - (ew - ex))) by (apply Z.pow_le_mono_r; lia).
    assert (0 < 2 ^ (ew - ex)) by (apply Z.pow_pos_nonneg; lia).
    nia.
Qed.

(** Rounding is monotone against a representable upper bound: an operand
    whose exact value does not exceed a canonical finite [w] rounds to at most
    [w]. For an inexact operand (the true value lies strictly above
    [mx * 2^ex]) the bound on [mx * 2^ex] is strict. *)
Lemma round_aux_le mx ex lx pw ew :
  0 <= mx ->
  ex <= fexp prec emax (Zdigits2 mx + ex) ->
  canon (Zpos pw) ew -> ew <= emax - prec ->
  (lx = loc_Exact /\ (F2R mx ex <= F2R (Zpos pw) ew)%R) \/
    (F2R mx ex < F2R (Zpos pw) ew)%R ->
  SFleb (binary_round_aux prec emax false mx ex lx) (S754_finite false pw ew) = true.
Proof.
  intros Hm Hk Cw Bw Hv.
  assert (Hle : (F2R mx ex <= F2R (Zpos pw) ew)%R) by (destruct Hv as [[_ H] | H]; lra).
  pose proof (truncation_exponent_le mx ex pw ew Hm Hk Cw Hle) as He1.
  destruct (round_aux_spec false mx ex lx Hm Hk) as (m1 & B1 & X1 & He & ->).
  set (e1 := fexp prec emax (Zdigits2 mx + ex)) in *.
  set (mt := mx / 2 ^ (e1 - ex)) in *.
  assert (Hp : 0 < 2 ^ (e1 - ex)) by (apply Z.pow_pos_nonneg; lia).
  assert (Hmt : 0 <= mt) by (apply Z.div_pos; lia).
  assert (Hfloor : mt * 2 ^ (e1 - ex) <= mx)
    by (unfold mt; rewrite Z.mul_comm; apply Z.mul_div_le; exact Hp).
  (* the bound, on the grid of [e1] *)
  assert (Hw : F2R (Zpos pw) ew = F2R (Zpos pw * 2 ^ (ew - e1)) e1).
  { replace ew with (e1 + (ew - e1)) at 1 by lia. apply F2R_shift. lia. }
  assert (Ht : F2R (mt * 2 ^ (e1 - ex)) ex = F2R mt e1).
  { replace e1 with (ex + (e1 - ex)) at 2 by lia. symmetry. apply F2R_shift. lia. }
  assert (Hm1 : (F2R m1 e1 <= F2R (Zpos pw) ew)%R).
  { rewrite Hw.
    apply F2R_le.
    assert (Dec : (lx = loc_Exact /\ mx mod 2 ^ (e1 - ex) = 0) \/
                  ~ (lx = loc_Exact /\ mx mod 2 ^ (e1 - ex) = 0)).
    { destruct lx; [| right; intros [H _]; discriminate H].
      destruct (Z.eq_dec (mx mod 2 ^ (e1 - ex)) 0); [left | right]; tauto. }
    destruct Dec as [[Hl Hmod] | Hn].
    - rewrite (X1 Hl Hmod).
      apply (F2R_le_inv _ _ e1). rewrite <- Hw, <- Ht.
      apply Rle_trans with (F2R mx ex); [apply F2R_le; exact Hfloor | exact Hle].
    - assert (Hlt : (F2R mt e1 < F2R (Zpos pw) ew)%R).
      { rewrite <- Ht. destruct Hv as [[Hl Hv] | Hv].
        - apply Rlt_le_trans with (F2R mx ex); [| exact Hv].
          unfold F2R. apply Rmult_lt_compat_r; [apply bpow_pos |]. apply IZR_lt.
          assert (mx mod 2 ^ (e1 - ex) <> 0) by tauto.
          pose proof (Z.div_mod mx (2 ^ (e1 - ex)) ltac:(lia)) as Hdm.
          pose proof (Z.mod_pos_bound mx (2 ^ (e1 - ex)) Hp).
          fold mt in Hdm. lia.
        - apply Rle_lt_trans with (F2R mx ex); [apply F2R_le; exact Hfloor | exact Hv]. }
      rewrite Hw in Hlt. apply F2R_lt_inv in Hlt. lia. }
  set (e2 := fexp prec emax (Zdigits2 m1 + e1)) in *.
  destruct (m1 / 2 ^ (e2 - e1)) as [| p | p] eqn:Eq.
  - reflexivity.
  - destruct (renormalise_canon m1 e1 p ltac:(lia) He Eq) as [Cp Vp].
    fold e2 in Cp, Vp.
    assert (Hv2 : (F2R (Zpos p) e2 <= F2R (Zpos pw) ew)%R) by lra.
    assert (He2 : e2 <= ew).
    { destruct (Z_le_gt_dec e2 ew) as [H | H]; [exact H | exfalso].
      pose proof (canon_exp_lt_value (Zpos pw) ew (Zpos p) e2
                    ltac:(lia) ltac:(lia) Cw Cp ltac:(lia)). lra. }
    replace (e2 <=? emax - prec) with true by (symmetry; apply Z.leb_le; lia).
    apply SFleb_of_value; assumption.
  - exfalso.
    assert (0 <= m1 / 2 ^ (e2 - e1))
      by (apply Z.div_pos; [lia | apply Z.pow_pos_nonneg; lia]).
    lia.
Qed.


(** *** Products and quotients in the unit interval *)

Lemma F2R_one : F2R 4503599627370496 (-52) = 1%R.
Proof.
  change 4503599627370496 with (1 * 2 ^ 52).
  rewrite <- F2R_shift by lia. unfold F2R. simpl. lra.
Qed.

Lemma F2R_pos p e : (0 < F2R (Zpos p) e)%R.
Proof.
  unfold F2R. apply Rmult_lt_0_compat; [apply IZR_lt; lia | apply bpow_pos].
Qed.

Lemma valid_finite s p e :
  valid_binary (S754_finite s p e) = true -> canon (Zpos p) e /\ e <= emax - prec.
Proof.
  simpl. unfold bounded. intros H. apply andb_prop in H. destruct H as [Hc He].
  split; [now apply canonical_mantissa_canon | now apply Z.leb_le].
Qed.

(** The exact product of two canonical operands is never coarser than its
    target exponent. *)
Lemma mul_operand_fine p1 e1 p2 e2 :
  canon (Zpos p1) e1 -> canon (Zpos p2) e2 ->
  e1 + e2 <= fexp prec emax (Zdigits2 (Zpos (p1 * p2)) + (e1 + e2)).
Proof.
  intros C1 C2. rewrite fexp_eq.
  pose proof (canon_min_exp _ _ C1). pose proof (canon_min_exp _ _ C2).
  destruct (Z.eq_dec e1 (-1074)) as [E1 | E1];
    [destruct (Z.eq_dec e2 (-1074)) as [E2 | E2]; [lia |] |].
  - pose proof (canon_normal (Zpos p2) e2 ltac:(lia) C2 ltac:(lia)).
    assert (53 <= Zdigits2 (Zpos (p1 * p2))).
    { apply (Zdigits2_ge _ 52); [lia |]. rewrite Pos2Z.inj_mul. nia. }
    lia.
  - pose proof (canon_normal (Zpos p1) e1 ltac:(lia) C1 ltac:(lia)).
    assert (53 <= Zdigits2 (Zpos (p1 * p2))).
    { apply (Zdigits2_ge _ 52); [lia |]. rewrite Pos2Z.inj_mul. nia. }
    lia.
Qed.

Lemma SFleb_zero_cases x :
  SFleb (S754_zero false) x = true ->
  (exists s, x = S754_zero s) \/ x = S754_infinity false \/
  exists p e, x = S754_finite false p e.
Proof.
  destruct x as [s | [] | | [] p e]; simpl; intros H; try discriminate H; eauto.
Qed.

(** Multiplying a finite non-negative [a] by a factor in [[0, 1]] yields a
    value in [[0, a]]. *)
Lemma mul_unit_le (r a : float) :
  (0 <=? r)%float = true -> (r <=? 1)%float = true ->
  (0 <=? a)%float = true -> is_finite a = true ->
  (0 <=? r * a)%float = true /\ (r * a <=? a)%float = true.
Proof.
  unfold is_finite, is_nan, is_infinity.
  rewrite !leb_spec, !eqb_spec, abs_spec, mul_spec.
  pose proof (Prim2SF_valid r) as Vr. pose proof (Prim2SF_valid a) as Va.
  change (Prim2SF 0) with (S754_zero false).
  change (Prim2SF 1) with (S754_finite false 4503599627370496 (-52)).
  change (Prim2SF infinity) with (S754_infinity false).
  intros Hr0 Hr1 Ha0 Hfin.
  destruct (SFleb_zero_cases _ Hr0) as [[sr Er] | [Er | (pr & er & Er)]];
    rewrite Er in *; clear Er; [| discriminate Hr1 |];
  (destruct (SFleb_zero_cases _ Ha0) as [[sa Ea] | [Ea | (pa & ea & Ea)]];
    rewrite Ea in *; clear Ea; [| discriminate Hfin |]).
  - split; destruct sr, sa; reflexivity.
  - split; destruct sr; reflexivity.
  - split; destruct sa; reflexivity.
  - destruct (valid_finite _ _ _ Vr) as [Cr _].
    destruct (valid_finite _ _ _ Va) as [Ca Ba].
    unfold SF64mul, SFmul. simpl xorb.
    pose proof (mul_operand_fine pr er pa ea Cr Ca) as Hfine.
    split.
    + destruct (round_aux_cases false (Zpos (pr * pa)) (er + ea) loc_Exact
                  ltac:(lia) Hfine) as [-> | [-> | (p & e & -> & _)]]; reflexivity.
    + apply round_aux_le; try assumption; [lia |].
      left. split; [reflexivity |].
      rewrite Pos2Z.inj_mul, F2R_mul.
      assert (H1 : (F2R (Zpos pr) er <= 1)%R).
      { rewrite <- F2R_one. apply value_of_SFleb; try assumption. reflexivity. }
      pose proof (F2R_pos pa ea). pose proof (F2R_pos pr er). nra.
Qed.


Lemma fexp_mono x y : x <= y -> fexp prec emax x <= fexp prec emax y.
Proof. rewrite !fexp_eq. lia. Qed.

Lemma new_location_exact n : new_location n 0 = loc_Exact.
Proof. unfold new_location. destruct (Z.even n); reflexivity. Qed.

(** The quotient digits [SFdiv] hands to the rounding step, for two
    positive integers [c <= n] taken as exact operands. *)
Lemma div_core_unit c n :
  0 < c -> c <= n ->
  let '(q, e, l) := SFdiv_core_binary prec emax c 0 n 0 in
  0 <= q /\ e <= fexp prec emax (Zdigits2 q + e) /\
  ((l = loc_Exact /\ (F2R q e <= 1)%R) \/ (F2R q e < 1)%R).
Proof.
  intros Hc Hcn. unfold SFdiv_core_binary.
  rewrite !Z.add_0_r, !Z.sub_0_r.
  set (d1 := Zdigits2 c). set (d2 := Zdigits2 n).
  set (e := Z.min (fexp prec emax (d1 - d2)) 0).
  assert (He : e <= 0) by (unfold e; lia).
  assert (Hm : (match 0 - e with
                | Z0 => c
                | Zpos _ => Z.shiftl c (0 - e)
                | Zneg _ => 0
                end) = c * 2 ^ (0 - e)).
  { destruct (0 - e) as [| p | p] eqn:Es; try lia.
    rewrite Z.shiftl_mul_pow2 by lia. reflexivity. }
  rewrite Hm. clear Hm.
  set (s := 0 - e) in *.
  assert (Hs : 0 <= s) by (unfold s; lia).
  assert (Hp : 0 < 2 ^ s) by (apply Z.pow_pos_nonneg; lia).
  pose proof (Z_div_mod (c * 2 ^ s) n ltac:(lia)) as Hdm.
  destruct (Z.div_eucl (c * 2 ^ s) n) as [q r]. destruct Hdm as [Hq Hr].
  assert (Hq0 : 0 <= q) by nia.
  assert (Hone : 1%R = F2R (2 ^ s) e).
  { replace (2 ^ s) with (1 * 2 ^ s) by lia.
    rewrite <- F2R_shift by lia. replace (e + s) with 0 by (unfold s; lia).
    unfold F2R. simpl. lra. }
  split; [exact Hq0 |]. split.
  - (* enough quotient digits *)
    apply Z.le_trans with (fexp prec emax (d1 - d2)); [unfold e; lia |].
    apply fexp_mono.
    destruct (Z_le_gt_dec (d1 + s - d2) 0) as [Hsmall | Hbig].
    + pose proof (Zdigits2_nonneg q). unfold s in *. lia.
    + assert (d1 + s - d2 <= Zdigits2 q); [| unfold s in *; lia].
      replace (d1 + s - d2) with ((d1 + s - d2 - 1) + 1) by lia.
      apply Zdigits2_ge; [lia |].
      pose proof (Zdigits2_bounds c Hc) as [Clo _].
      pose proof (Zdigits2_bounds n ltac:(lia)) as [_ Nhi].
      fold d1 in Clo. fold d2 in Nhi.
      assert (Hd2 : 0 < d2) by (apply Zdigits2_pos; lia).
      assert (Hd1 : 0 < d1) by (apply Zdigits2_pos; lia).
      (* n * 2^t < 2^(d2 + t) = 2^(d1 - 1) * 2^s <= c * 2^s *)
      assert (Ht : 2 ^ d2 * 2 ^ (d1 + s - d2 - 1) = 2 ^ (d1 - 1) * 2 ^ s).
      { rewrite <- !Z.pow_add_r by lia. f_equal. lia. }
      assert (Hpt : 0 < 2 ^ (d1 + s - d2 - 1)) by (apply Z.pow_pos_nonneg; lia).
      destruct (Z_le_gt_dec (2 ^ (d1 + s - d2 - 1)) q) as [H | H]; [exact H | exfalso].
      assert (q + 1 <= 2 ^ (d1 + s - d2 - 1)) by lia.
      assert (n * (q + 1) <= n * 2 ^ (d1 + s - d2 - 1)) by (apply Z.mul_le_mono_nonneg_l; lia).
      assert (n * 2 ^ (d1 + s - d2 - 1) < 2 ^ d2 * 2 ^ (d1 + s - d2 - 1))
        by (apply Z.mul_lt_mono_pos_r; lia).
      assert (2 ^ (d1 - 1) * 2 ^ s <= c * 2 ^ s) by (apply Z.mul_le_mono_nonneg_r; lia).
      lia.
  - rewrite Hone.
    assert (Hbound : n * q + r <= n * 2 ^ s).
    { rewrite <- Hq. apply Z.mul_le_mono_nonneg_r; lia. }
    destruct (Z.eq_dec r 0) as [-> | Hr0].
    + left. split; [apply new_location_exact |].
      apply F2R_le. nia.
    + right. unfold F2R. apply Rmult_lt_compat_r; [apply bpow_pos |]. apply IZR_lt. nia.
Qed.

(** Python's [int / int] on [0 <= c <= n], [0 < n]: a float in [[0, 1]]. *)
Lemma SFdiv_unit pc pn :
  Zpos pc <= Zpos pn ->
  let q := SFdiv prec emax (S754_finite false pc 0) (S754_finite false pn 0) in
  valid_binary q = true /\
  SFleb (S754_zero false) q = true /\
  SFleb q (S754_finite false 4503599627370496 (-52)) = true.
Proof.
  intros Hcn. unfold SFdiv. simpl xorb.
  pose proof (div_core_unit (Zpos pc) (Zpos pn) ltac:(lia) Hcn) as H.
  destruct (SFdiv_core_binary prec emax (Zpos pc) 0 (Zpos pn) 0) as [[q e] l].
  destruct H as (Hq & Hfine & Hv). cbv zeta.
  split; [now apply round_aux_valid |]. split.
  - destruct (round_aux_cases false q e l Hq Hfine) as [-> | [-> | (p & e' & -> & _)]];
      reflexivity.
  - apply round_aux_le; try assumption.
    + reflexivity.
    + unfold emax, prec. lia.
    + rewrite F2R_one. exact Hv.
Qed.

End FloatFacts.

(** ** The runtime's division and product, on the values the estimator uses *)

Lemma is_infinity_spec (x : float) :
  is_infinity x = SFeqb (SFabs (Prim2SF x)) (S754_infinity false).
Proof. unfold is_infinity. rewrite eqb_spec, abs_spec. reflexivity. Qed.

(** The ratio [under / points_number] of a count that does not exceed the
    sample size is a float in [[0, 1]]; the division raises nothing. *)
Lemma int_truediv_unit (c n : Z) :
  0 <= c <= n -> 0 < n ->
  exists q, int_truediv c n = Return q /\
            (0 <=? q)%float = true /\ (q <=? 1)%float = true.
Proof.
  intros [Hc Hcn] Hn. unfold int_truediv.
  destruct (Z.eqb_spec n 0) as [E | _]; [lia |].
  destruct n as [| pn | pn]; try lia.
  destruct c as [| pc | pc]; try lia.
  - exists 0%float. split; [reflexivity | split; reflexivity].
  - simpl Z2SF.
    destruct (FloatFacts.SFdiv_unit pc pn Hcn) as (Hvalid & H0 & H1).
    set (q := SFdiv prec emax (S754_finite false pc 0) (S754_finite false pn 0)) in *.
    assert (Hq : Prim2SF (SF2Prim q) = q) by (apply Prim2SF_SF2Prim; exact Hvalid).
    assert (Hinf : is_infinity (SF2Prim q) = false).
    { rewrite is_infinity_spec, Hq.
      destruct q as [s | [] | | [] p e]; simpl in *; try reflexivity;
        discriminate. }
    rewrite Hinf. exists (SF2Prim q). split; [reflexivity |].
    rewrite !leb_spec, Hq. split; assumption.
Qed.

(** The area of a rectangle with positive sides is not negative (it may be
    zero by underflow, or infinite by overflow). *)
Lemma rectangle_area_nonneg (xmax ymax : float) :
  (0 <? xmax)%float = true -> (0 <? ymax)%float = true ->
  (0 <=? xmax * ymax)%float = true.
Proof.
  rewrite !ltb_spec, leb_spec, mul_spec.
  pose proof (Prim2SF_valid xmax) as Vx. pose proof (Prim2SF_valid ymax) as Vy.
  change (Prim2SF 0) with (S754_zero false).
  destruct (Prim2SF xmax) as [sx | [] | | [] px ex];
    simpl; intros Hx; try discriminate Hx;
  (destruct (Prim2SF ymax) as [sy | [] | | [] py ey];
    simpl; intros Hy; try discriminate Hy); try reflexivity.
  destruct (FloatFacts.valid_finite _ _ _ Vx) as [Cx _].
  destruct (FloatFacts.valid_finite _ _ _ Vy) as [Cy _].
  destruct (FloatFacts.round_aux_cases false (Zpos (px * py)) (ex + ey) loc_Exact
              ltac:(lia) (FloatFacts.mul_operand_fine px ex py ey Cx Cy))
    as [-> | [-> | (p & e & -> & _)]]; reflexivity.
Qed.

(** ** The sampling loop against the sample as a list *)

Section Verification.

Variable rng : Type.
Variable random_seed : Z -> rng.
Variable random_random : rng -> float * rng.
Variable quad :
  (float -> outcome float) -> float -> float -> outcome (float * float).
Variable draw : (float -> outcome float) -> pynum -> outcome unit.

Lemma world_eta (w : world rng) : World (gen w) (stdout w) = w.
Proof. destruct w; reflexivity. Qed.

Lemma sample_points_length xmax ymax rounds : forall g,
  List.length (fst (sample_points random_random xmax ymax rounds g)) = rounds.
Proof.
  induction rounds as [| r IH]; intros g; simpl; [reflexivity |].
  destruct (random_random g) as [u g1]. destruct (random_random g1) as [v g2].
  specialize (IH g2).
  destruct (sample_points random_random xmax ymax r g2) as [rest g'].
  simpl in *. now rewrite IH.
Qed.

Lemma count_under_bounds func points :
  0 <= count_under func points <= Z.of_nat (List.length points).
Proof.
  unfold count_under. split; [lia |].
  apply Nat2Z.inj_le. apply filter_length_le.
Qed.

(** The loop, round by round: it stops at the first fault of [func], having
    drawn the points up to and including the faulty one, and otherwise adds
    to [acc] the number of sampled points under the curve. *)
Lemma points_under_curve_spec xmax ymax func rounds : forall acc (w : world rng),
  points_under_curve random_random xmax ymax func rounds acc w =
    let (points, g') := sample_points random_random xmax ymax rounds (gen w) in
    match first_fault func points with
    | None => (Return (acc + count_under func points), World g' (stdout w))
    | Some (k, e) =>
        (Raise (leaving_generator e),
         World (snd (sample_points random_random xmax ymax (S k) (gen w)))
               (stdout w))
    end.
Proof.
  induction rounds as [| r IH]; intros acc w.
  - simpl. unfold ret, count_under. simpl. now rewrite Z.add_0_r, world_eta.
  - cbn [points_under_curve sample_points].
    unfold bind, random_uniform, lift, in_generator.
    destruct (random_random (gen w)) as [u g1] eqn:E1. cbn [gen stdout].
    destruct (random_random g1) as [v g2] eqn:E2. cbn [gen stdout].
    destruct (func (0 + (xmax - 0) * v)%float) as [fx | e] eqn:Ef.
    + rewrite IH. cbn [gen stdout].
      destruct (sample_points random_random xmax ymax r g2) as [rest g'].
      cbn [first_fault fst]. rewrite Ef.
      destruct (first_fault func rest) as [[k e] |].
      * cbv beta iota.
        now destruct (sample_points random_random xmax ymax (S k) g2).
      * assert (Hu : under_curve func
                       ((0 + (xmax - 0) * v)%float, (0 + (ymax - 0) * u)%float)
                     = (0 + (ymax - 0) * u <=? fx)%float)
          by (unfold under_curve; cbn [fst snd]; now rewrite Ef).
        unfold count_under. cbn [filter]. rewrite Hu.
        destruct (0 + (ymax - 0) * u <=? fx)%float; cbn [List.length];
          f_equal; f_equal; lia.
    + destruct (sample_points random_random xmax ymax r g2) as [rest g'].
      cbn [first_fault fst]. rewrite Ef. reflexivity.
Qed.

(** [integral_mc] on an integer count that passes the guard: the sample is
    drawn from the start state; a fault of [func] ends the call where it
    occurs; otherwise the ratio is taken and scaled by the rectangle. *)
Lemma integral_mc_int_spec xmax ymax func n seed (w : world rng) :
  0 <= n ->
  integral_mc random_seed random_random xmax ymax func (PyInt n) seed w =
    let g0 := start_state random_seed seed w in
    let (points, g') := sample_points random_random xmax ymax (Z.to_nat n) g0 in
    match first_fault func points with
    | Some (k, e) =>
        (Raise (leaving_generator e),
         World (snd (sample_points random_random xmax ymax (S k) g0)) (stdout w))
    | None =>
        match int_truediv (count_under func points) n with
        | Return ratio =>
            (Return (ratio * (xmax * ymax))%float, World g' (stdout w))
        | Raise e => (Raise e, World g' (stdout w))
        end
    end.
Proof.
  intros Hn. unfold integral_mc, rejects. cbn [lt0 is_int negb].
  replace (n <? 0) with false by (symmetry; apply Z.ltb_ge; lia).
  cbn [orb]. unfold bind at 1.
  assert (Hs : (match seed with
                | Some a => seed_generator rng random_seed a
                | None => ret rng tt
                end) w
               = (Return tt, World (start_state random_seed seed w) (stdout w))).
  { destruct seed; unfold seed_generator, ret, start_state;
      [reflexivity | now rewrite world_eta]. }
  rewrite Hs. unfold bind. rewrite points_under_curve_spec. cbn [gen stdout].
  cbv zeta.
  destruct (sample_points random_random xmax ymax (Z.to_nat n)
              (start_state random_seed seed w)) as [points g'].
  destruct (first_fault func points) as [[k e] |]; [reflexivity |].
  rewrite Z.add_0_l. unfold lift, ret.
  destruct (int_truediv (count_under func points) n); reflexivity.
Qed.

(** The count over a sample of [n] points lies between 0 and [n]. *)
Lemma count_under_sample_bounds xmax ymax func n g :
  0 <= n ->
  0 <= count_under func
         (fst (sample_points random_random xmax ymax (Z.to_nat n) g)) <= n.
Proof.
  intros Hn.
  pose proof (count_under_bounds func
                (fst (sample_points random_random xmax ymax (Z.to_nat n) g))) as H.
  rewrite sample_points_length, Z2Nat.id in H by lia. exact H.
Qed.

(** No fault in a sample: [func] returns at every sampled abscissa. *)
Lemma first_fault_none_iff func points :
  first_fault func points = None <->
  Forall (fun p => exists v, func (fst p) = Return v) points.
Proof.
  induction points as [| p rest IH]; cbn [first_fault].
  - split; [constructor | reflexivity].
  - destruct (func (fst p)) as [v | e] eqn:Ef.
    + destruct (first_fault func rest) as [[k e] |].
      * split; [discriminate |]. intros H. inversion H; subst.
        apply IH in H3. discriminate H3.
      * split; [| reflexivity]. intros _. constructor; [eauto | now apply IH].
    + split; [discriminate |]. intros H. inversion H; subst.
      destruct H2 as [v Hv]. congruence.
Qed.

(** The outcome of a call is a function of its arguments and of the generator
    state it starts sampling from. *)
Lemma integral_mc_outcome_from_start xmax ymax func points_number seed1 seed2
    (w1 w2 : world rng) :
  start_state random_seed seed1 w1 = start_state random_seed seed2 w2 ->
  fst (integral_mc random_seed random_random xmax ymax func points_number
         seed1 w1) =
  fst (integral_mc random_seed random_random xmax ymax func points_number
         seed2 w2).
Proof.
  intros Hs. destruct points_number as [n | f].
  - destruct (Z_lt_le_dec n 0) as [Hneg | Hpos].
    + unfold integral_mc, rejects. cbn [lt0].
      replace (n <? 0) with true by (symmetry; apply Z.ltb_lt; lia).
      reflexivity.
    + rewrite !integral_mc_int_spec by lia. cbv zeta. rewrite Hs.
      destruct (sample_points random_random xmax ymax (Z.to_nat n)
                  (start_state random_seed seed2 w2)) as [points g'].
      destruct (first_fault func points) as [[k e] |]; [reflexivity |].
      destruct (int_truediv (count_under func points) n); reflexivity.
  - unfold integral_mc, rejects. cbn [is_int negb]. rewrite orb_true_r.
    reflexivity.
Qed.

(** ** Verified properties *)

(** C2. For a call with a positive integer sample count during which [func]
    returns at every sampled abscissa, [integral_mc] returns
    [(count / points_number) * (xmax * ymax)], where [count] is the number of
    sampled points [(x, y)] with [y <= func(x)], the quotient is Python's
    [int / int] and the product is taken in floats; the generator is left
    after the last draw and nothing is printed. *)
Theorem integral_mc_estimate xmax ymax func n seed (w : world rng) :
  0 < n ->
  first_fault func
    (fst (sample_points random_random xmax ymax (Z.to_nat n)
            (start_state random_seed seed w))) = None ->
  exists ratio,
    int_truediv
      (count_under func
         (fst (sample_points random_random xmax ymax (Z.to_nat n)
                 (start_state random_seed seed w)))) n = Return ratio /\
    integral_mc random_seed random_random xmax ymax func (PyInt n) seed w =
      (Return (ratio * (xmax * ymax))%float,
       World (snd (sample_points random_random xmax ymax (Z.to_nat n)
                     (start_state random_seed seed w)))
             (stdout w)).
Proof.
  intros Hn Hok.
  rewrite integral_mc_int_spec by lia. cbv zeta.
  pose proof (count_under_sample_bounds xmax ymax func n
                (start_state random_seed seed w) ltac:(lia)) as Hc.
  destruct (sample_points random_random xmax ymax (Z.to_nat n)
              (start_state random_seed seed w)) as [points g'].
  cbn [fst snd] in *. rewrite Hok.
  destruct (int_truediv_unit _ n Hc Hn) as (q & Hq & _).
  exists q. rewrite Hq. split; reflexivity.
Qed.

(** C3. With a seed supplied, the result of [integral_mc] is the same
    whatever the state of the process: two calls with the same arguments and
    seed return identical outcomes (the same float, bit for bit, or the same
    exception). *)
Theorem integral_mc_seeded_deterministic xmax ymax func points_number a
    (w1 w2 : world rng) :
  fst (integral_mc random_seed random_random xmax ymax func points_number
         (Some a) w1) =
  fst (integral_mc random_seed random_random xmax ymax func points_number
         (Some a) w2).
Proof. apply integral_mc_outcome_from_start. reflexivity. Qed.

(** C4 (as amended). For a call with a positive integer sample count, positive
    [xmax] and [ymax], during which [func] returns at every sampled abscissa:
    the loop ends with a count of points under the curve in
    [[0, points_number]], the call returns an estimate, and whenever the
    rectangle area [xmax * ymax] is finite (the float product did not
    overflow) the estimate lies in [[0, xmax * ymax]]. *)
Theorem integral_mc_bounded xmax ymax func n seed (w : world rng) :
  0 < n ->
  (0 <? xmax)%float = true -> (0 <? ymax)%float = true ->
  first_fault func
    (fst (sample_points random_random xmax ymax (Z.to_nat n)
            (start_state random_seed seed w))) = None ->
  exists under estimate,
    fst (points_under_curve random_random xmax ymax func (Z.to_nat n) 0
           (World (start_state random_seed seed w) (stdout w))) = Return under /\
    0 <= under <= n /\
    fst (integral_mc random_seed random_random xmax ymax func (PyInt n) seed w)
      = Return estimate /\
    (is_finite (xmax * ymax) = true ->
     (0 <=? estimate)%float = true /\
     (estimate <=? xmax * ymax)%float = true).
Proof.
  intros Hn Hx Hy Hok.
  pose proof (count_under_sample_bounds xmax ymax func n
                (start_state random_seed seed w) ltac:(lia)) as Hc.
  rewrite integral_mc_int_spec by lia.
  rewrite points_under_curve_spec. cbv zeta. cbn [gen stdout].
  destruct (sample_points random_random xmax ymax (Z.to_nat n)
              (start_state random_seed seed w)) as [points g'].
  cbn [fst snd] in *. rewrite Hok.
  destruct (int_truediv_unit _ n Hc Hn) as (q & Hq & Hq0 & Hq1).
  rewrite Hq. exists (count_under func points), (q * (xmax * ymax))%float.
  split; [now rewrite Z.add_0_l |]. split; [exact Hc |].
  split; [reflexivity |].
  intros Hfin. apply FloatFacts.mul_unit_le; try assumption.
  now apply rectangle_area_nonneg.
Qed.

(** C5. The comparison step computes [|reference - estimate| / reference * 100]
    and raises ZeroDivisionError when the reference is zero: in
    [usage_example], once the reference integrator and [integral_mc] have
    returned, a zero reference makes the call fail with that error, nothing
    being printed, instead of reporting a zero or infinite percentage. *)
Theorem zero_reference_is_surfaced xmax points_number func (w w' : world rng)
    reference err ymax estimate :
  bad_xmax xmax = false ->
  quad func 0 (as_float xmax) = Return (reference, err) ->
  func (as_float xmax) = Return ymax ->
  integral_mc random_seed random_random (as_float xmax) ymax func
    points_number None w = (Return estimate, w') ->
  difference_percent reference estimate =
    (if is_zero reference then Raise ZeroDivisionError
     else Return (abs (reference - estimate) / reference * 100)%float) /\
  (forall anything, difference_percent 0 anything = Raise ZeroDivisionError) /\
  (is_zero reference = true ->
   usage_example random_seed random_random quad draw xmax points_number func
     w = (Raise ZeroDivisionError, w')).
Proof.
  intros Hx Hquad Hf Hmc.
  assert (Hd : difference_percent reference estimate =
               (if is_zero reference then Raise ZeroDivisionError
                else Return (abs (reference - estimate) / reference * 100)%float)).
  { unfold difference_percent, float_truediv.
    destruct (is_zero reference); reflexivity. }
  split; [exact Hd |]. split; [reflexivity |].
  intros Hz. unfold usage_example. rewrite Hx.
  unfold compare_and_plot, bind, lift.
  rewrite Hquad, Hf, Hmc. cbn [fst]. rewrite Hd, Hz. reflexivity.
Qed.

(** C6. A call whose [points_number] the guard rejects raises ValueError and
    leaves the whole process state as it was: the generator is neither
    re-seeded (even when a seed was passed) nor advanced. *)
Theorem rejected_call_consumes_no_randomness xmax ymax func points_number seed
    (w : world rng) :
  rejects points_number = true ->
  integral_mc random_seed random_random xmax ymax func points_number seed w =
    (Raise (ValueError "points_number must be a positive integer"), w).
Proof.
  intros Hr. unfold integral_mc. rewrite Hr. reflexivity.
Qed.

(** C7 (as amended). [random.seed] re-seeds the generator of the process, and
    the state a call leaves stays behind. A later call that passes a seed of
    its own is unaffected by any earlier call; a later call without a seed
    continues the stream where the earlier call left it, namely (for an earlier
    seeded call without fault) after the draws of that call from its seed. *)
Theorem seeded_call_ignores_history
    xmax1 ymax1 func1 n1 seed1 xmax2 ymax2 func2 points2 a2 (w : world rng) :
  0 <= n1 ->
  first_fault func1
    (fst (sample_points random_random xmax1 ymax1 (Z.to_nat n1)
            (start_state random_seed seed1 w))) = None ->
  fst (integral_mc random_seed random_random xmax2 ymax2 func2 points2 (Some a2)
         (snd (integral_mc random_seed random_random xmax1 ymax1 func1
                 (PyInt n1) seed1 w))) =
  fst (integral_mc random_seed random_random xmax2 ymax2 func2 points2 (Some a2)
         w) /\
  integral_mc random_seed random_random xmax2 ymax2 func2 points2 None
    (snd (integral_mc random_seed random_random xmax1 ymax1 func1
            (PyInt n1) seed1 w)) =
  integral_mc random_seed random_random xmax2 ymax2 func2 points2 None
    (World (snd (sample_points random_random xmax1 ymax1 (Z.to_nat n1)
                   (start_state random_seed seed1 w)))
           (stdout w)).
Proof.
  intros Hn Hok.
  split; [apply integral_mc_outcome_from_start; reflexivity |].
  f_equal. rewrite integral_mc_int_spec by lia. cbv zeta.
  destruct (sample_points random_random xmax1 ymax1 (Z.to_nat n1)
              (start_state random_seed seed1 w)) as [points g'].
  cbn [fst snd] in *. rewrite Hok.
  destruct (int_truediv (count_under func1 points) n1); reflexivity.
Qed.

(** C8 (as amended). A fault raised by [func] at a sampled abscissa ends the
    call at once, right after the draws of the faulty point: later points are
    not drawn, nothing is retried, no partial result is returned. The caller
    receives that very fault, unless it is a StopIteration: [func] runs in a
    generator expression, which hands a StopIteration on as RuntimeError.
    Conversely a call that returns a value evaluated [func] without fault at
    every one of its [points_number] points. *)
Theorem function_fault_propagates xmax ymax func n seed (w : world rng) :
  0 <= n ->
  (forall k e,
     first_fault func
       (fst (sample_points random_random xmax ymax (Z.to_nat n)
               (start_state random_seed seed w))) = Some (k, e) ->
     e <> StopIteration ->
     integral_mc random_seed random_random xmax ymax func (PyInt n) seed w =
       (Raise e,
        World (snd (sample_points random_random xmax ymax (S k)
                      (start_state random_seed seed w)))
              (stdout w))) /\
  (forall k,
     first_fault func
       (fst (sample_points random_random xmax ymax (Z.to_nat n)
               (start_state random_seed seed w))) = Some (k, StopIteration) ->
     integral_mc random_seed random_random xmax ymax func (PyInt n) seed w =
       (Raise (RuntimeError "generator raised StopIteration"),
        World (snd (sample_points random_random xmax ymax (S k)
                      (start_state random_seed seed w)))
              (stdout w))) /\
  (forall estimate,
     fst (integral_mc random_seed random_random xmax ymax func (PyInt n) seed w)
       = Return estimate ->
     first_fault func
       (fst (sample_points random_random xmax ymax (Z.to_nat n)
               (start_state random_seed seed w))) = None).
Proof.
  intros Hn. rewrite integral_mc_int_spec by lia. cbv zeta.
  destruct (sample_points random_random xmax ymax (Z.to_nat n)
              (start_state random_seed seed w)) as [points g'].
  cbn [fst]. split; [| split].
  - intros k e Hf He. rewrite Hf.
    destruct e; try reflexivity. now destruct He.
  - intros k Hf. rewrite Hf. reflexivity.
  - intros estimate.
    destruct (first_fault func points) as [[k e] |]; [discriminate | reflexivity].
Qed.

(** C9. [points_number = 0] passes the guard, which rejects only negative
    integers and non-integers; no point is drawn (the generator is left in
    the state the call started sampling from: re-seeded if a seed was passed,
    untouched otherwise); the call then raises ZeroDivisionError at
    [points_under_curve / points_number]. *)
Theorem zero_points_divides_by_zero xmax ymax func seed (w : world rng) :
  rejects (PyInt 0) = false /\
  (forall p, rejects p = true ->
     (exists n, p = PyInt n /\ n < 0) \/ (exists f, p = PyFloat f)) /\
  sample_points random_random xmax ymax (Z.to_nat 0)
    (start_state random_seed seed w) = ([], start_state random_seed seed w) /\
  integral_mc random_seed random_random xmax ymax func (PyInt 0) seed w =
    (Raise ZeroDivisionError,
     World (start_state random_seed seed w) (stdout w)).
Proof.
  split; [reflexivity |]. split; [| split; [reflexivity |]].
  - intros [n | f] Hr; [left | right; eauto].
    unfold rejects in Hr. cbn [lt0 is_int negb] in Hr.
    rewrite orb_false_r in Hr. apply Z.ltb_lt in Hr. eauto.
  - rewrite integral_mc_int_spec by lia. reflexivity.
Qed.

(** C10. [usage_example] with a negative [xmax] prints one line and returns
    [None]: no exception, no computation, the generator untouched. An [xmax]
    of zero (integer or float) passes the guard and goes on to the
    comparison. *)
Theorem usage_example_negative_xmax xmax points_number func (w : world rng) :
  lt0 xmax = true ->
  usage_example random_seed random_random quad draw xmax points_number func
    w =
    (Return tt,
     World (gen w) (stdout w ++ [Say "xmax must be a positive number"])) /\
  bad_xmax (PyInt 0) = false /\ bad_xmax (PyFloat 0) = false /\
  usage_example random_seed random_random quad draw (PyInt 0) points_number
    func w =
    compare_and_plot random_seed random_random quad draw (PyInt 0)
      points_number func w /\
  usage_example random_seed random_random quad draw (PyFloat 0) points_number
    func w =
    compare_and_plot random_seed random_random quad draw (PyFloat 0)
      points_number func w.
Proof.
  intros Hneg. repeat split; try reflexivity.
  unfold usage_example, bad_xmax. rewrite Hneg. reflexivity.
Qed.

(** X1. The guard of [integral_mc] rejects exactly the negative integers and
    every float: -5 and 3.5 are rejected, 0 and 1 are not. *)
Theorem guard_rejects_negative_and_non_int (points_number : pynum) :
  rejects points_number =
    match points_number with PyInt n => n <? 0 | PyFloat _ => true end /\
  rejects (PyInt (-5)) = true /\ rejects (PyFloat 3.5) = true /\
  rejects (PyInt 0) = false /\ rejects (PyInt 1) = false.
Proof.
  repeat split. unfold rejects.
  destruct points_number as [n | f]; cbn [lt0 is_int negb];
    [apply orb_false_r | apply orb_true_r].
Qed.

(** X2. A call with [points_number = 1] during which [func] returns draws one
    point and returns the rectangle area [xmax * ymax] if that point is under
    the curve, and zero times the area if it is not. *)
Theorem single_sample_estimate xmax ymax func seed (w : world rng) :
  first_fault func
    (fst (sample_points random_random xmax ymax 1
            (start_state random_seed seed w))) = None ->
  exists x y,
    fst (sample_points random_random xmax ymax 1
           (start_state random_seed seed w)) = [(x, y)] /\
    fst (integral_mc random_seed random_random xmax ymax func (PyInt 1) seed w)
      = Return ((if under_curve func (x, y) then 1 else 0) * (xmax * ymax))%float.
Proof.
  intros Hok. rewrite integral_mc_int_spec by lia. cbv zeta.
  change (Z.to_nat 1) with 1%nat. cbn [sample_points] in *.
  destruct (random_random (start_state random_seed seed w)) as [u g1].
  destruct (random_random g1) as [v g2]. cbn [fst] in *.
  eexists _, _. split; [reflexivity |]. rewrite Hok.
  unfold count_under. cbn [filter].
  destruct (under_curve func _); reflexivity.
Qed.

End Verification.

(** ** Concrete runs on Python's generator

    The values below are those CPython computes for the same calls. *)

Example mt19937_first_draws :
  fst (MT19937.random (MT19937.seed 0)) = 0x1.b0580f98a7dbep-1%float /\
  fst (MT19937.random (MT19937.seed 42)) = 0x1.4762f307200c5p-1%float.
Proof. split; vm_compute; reflexivity. Qed.

Example integral_mc_seed_3 :
  fst (integral_mc MT19937.seed MT19937.random 5.5 2.5 func_half (PyInt 7)
         (Some 3) demo_world) = Return 0x1.7924924924924p+2%float.
Proof. vm_compute. reflexivity. Qed.

Example usage_example_report :
  usage_example MT19937.seed MT19937.random quad_midpoint draw_elementwise
    (PyFloat 2) (PyInt 7) func_half demo_world =
    (Return tt,
     World (snd (sample_points MT19937.random 2 1 7 (MT19937.seed 0)))
       [SayNumber "Square calculated with Monte Carlo method = "
                  0x1.2492492492492p-1 "";
        SayNumber "Square calculated by integral = " 1 "";
        SayNumber "Difference = " 0x1.56db6db6db6dcp+5 " %";
        ShowPlot 2]).
Proof. vm_compute. reflexivity. Qed.

(** The same call when the drawing raises: the three lines are out, the
    exception of the drawing ends the call. *)
Example usage_example_report_then_drawing_fails :
  usage_example MT19937.seed MT19937.random quad_midpoint draw_scalar_only
    (PyFloat 2) (PyInt 7) func_half demo_world =
    (Raise TypeError,
     World (snd (sample_points MT19937.random 2 1 7 (MT19937.seed 0)))
       [SayNumber "Square calculated with Monte Carlo method = "
                  0x1.2492492492492p-1 "";
        SayNumber "Square calculated by integral = " 1 "";
        SayNumber "Difference = " 0x1.56db6db6db6dcp+5 " %"]).
Proof. vm_compute. reflexivity. Qed.

(** C1. The guard lets [points_number = 0] through: the call does not raise
    ValueError but ZeroDivisionError, after the generator was re-seeded. *)
Example validation_gate_lets_zero_through :
  rejects (PyInt 0) = false /\
  integral_mc MT19937.seed MT19937.random 1 1 func_identity (PyInt 0) (Some 1)
    demo_world = (Raise ZeroDivisionError, World (MT19937.seed 1) []).
Proof. split; [reflexivity | vm_compute; reflexivity]. Qed.

(** C2 on a concrete call: seven points under seed 3. *)
Lemma integral_mc_estimate_witness :
  0 < 7 /\
  exists ratio,
    int_truediv
      (count_under func_half
         (fst (sample_points MT19937.random 5.5 2.5 (Z.to_nat 7)
                 (start_state MT19937.seed (Some 3) demo_world)))) 7
      = Return ratio /\
    integral_mc MT19937.seed MT19937.random 5.5 2.5 func_half (PyInt 7)
      (Some 3) demo_world =
      (Return (ratio * (5.5 * 2.5))%float,
       World (snd (sample_points MT19937.random 5.5 2.5 (Z.to_nat 7)
                     (start_state MT19937.seed (Some 3) demo_world)))
             (stdout demo_world)).
Proof.
  split; [lia |].
  apply (integral_mc_estimate MT19937.state MT19937.seed MT19937.random
           5.5 2.5 func_half 7 (Some 3) demo_world);
    [lia | vm_compute; reflexivity].
Defined.

(** C4, as stated, fails: with [xmax = ymax = 1e200] the area overflows to
    infinity; the single point sampled under seed 0 is not under the curve of
    the zero function, and the estimate [0.0 * inf] is NaN, which is not
    [>= 0]. *)
Lemma estimate_not_in_range_on_overflow :
  (0 <? huge)%float = true /\
  first_fault func_zero
    (fst (sample_points MT19937.random huge huge (Z.to_nat 1)
            (start_state MT19937.seed (Some 0) demo_world))) = None /\
  exists estimate,
    fst (integral_mc MT19937.seed MT19937.random huge huge func_zero
           (PyInt 1) (Some 0) demo_world) = Return estimate /\
    (0 <=? estimate)%float = false /\
    (estimate <=? huge * huge)%float = false.
Proof.
  split; [reflexivity |]. split; [vm_compute; reflexivity |].
  exists nan. split; [vm_compute; reflexivity |]. split; reflexivity.
Qed.

(** C4 (as amended) on a concrete call. *)
Lemma integral_mc_bounded_witness :
  0 < 7 /\ (0 <? 5.5)%float = true /\ (0 <? 2.5)%float = true /\
  exists under estimate,
    fst (points_under_curve MT19937.random 5.5 2.5 func_half (Z.to_nat 7) 0
           (World (start_state MT19937.seed (Some 3) demo_world)
                  (stdout demo_world))) = Return under /\
    0 <= under <= 7 /\
    fst (integral_mc MT19937.seed MT19937.random 5.5 2.5 func_half (PyInt 7)
           (Some 3) demo_world) = Return estimate /\
    (is_finite (5.5 * 2.5) = true ->
     (0 <=? estimate)%float = true /\ (estimate <=? 5.5 * 2.5)%float = true).
Proof.
  split; [lia |]. split; [reflexivity |]. split; [reflexivity |].
  apply (integral_mc_bounded MT19937.state MT19937.seed MT19937.random
           5.5 2.5 func_half 7 (Some 3) demo_world);
    [lia | reflexivity | reflexivity | vm_compute; reflexivity].
Defined.

(** C5 on a concrete call: [xmax = 0.0], whose reference integral is zero. *)
Lemma zero_reference_is_surfaced_witness :
  usage_example MT19937.seed MT19937.random quad_midpoint draw_elementwise
    (PyFloat 0) (PyInt 1)
    func_identity demo_world =
    (Raise ZeroDivisionError,
     snd (integral_mc MT19937.seed MT19937.random 0 0 func_identity (PyInt 1)
            None demo_world)).
Proof.
  refine (proj2 (proj2
    (zero_reference_is_surfaced MT19937.state MT19937.seed MT19937.random
       quad_midpoint draw_elementwise
         (PyFloat 0) (PyInt 1) func_identity demo_world
       (snd (integral_mc MT19937.seed MT19937.random 0 0 func_identity
               (PyInt 1) None demo_world))
       0%float 0%float 0%float 0%float _ _ _ _)) _).
  - reflexivity.
  - reflexivity.
  - reflexivity.
  - vm_compute. reflexivity.
  - reflexivity.
Defined.

(** C6 on two concrete calls: [points_number = -5] and [3.5], with a seed. *)
Lemma rejected_call_consumes_no_randomness_witness :
  rejects (PyInt (-5)) = true /\ rejects (PyFloat 3.5) = true /\
  integral_mc MT19937.seed MT19937.random 1 1 func_identity (PyInt (-5))
    (Some 7) demo_world =
    (Raise (ValueError "points_number must be a positive integer"), demo_world) /\
  integral_mc MT19937.seed MT19937.random 1 1 func_identity (PyFloat 3.5)
    (Some 7) demo_world =
    (Raise (ValueError "points_number must be a positive integer"), demo_world).
Proof.
  split; [reflexivity |]. split; [reflexivity |]. split.
  - apply (rejected_call_consumes_no_randomness MT19937.state MT19937.seed
             MT19937.random 1 1 func_identity (PyInt (-5)) (Some 7) demo_world).
    reflexivity.
  - apply (rejected_call_consumes_no_randomness MT19937.state MT19937.seed
             MT19937.random 1 1 func_identity (PyFloat 3.5) (Some 7) demo_world).
    reflexivity.
Defined.

(** C7, as stated, fails: the result of an unseeded call depends on the seed
    an earlier call passed, and on whether that call was made. From the same
    process state, the unseeded call returns 0.0 on its own and after a call
    seeded with 1, but 1.0 after a call seeded with 2. *)
Lemma seeded_call_perturbs_next_call :
  fst (integral_mc MT19937.seed MT19937.random 1 1 func_identity (PyInt 1) None
         demo_world) = Return 0%float /\
  fst (integral_mc MT19937.seed MT19937.random 1 1 func_identity (PyInt 1) None
         (snd (integral_mc MT19937.seed MT19937.random 1 1 func_identity
                 (PyInt 1) (Some 1) demo_world))) = Return 0%float /\
  fst (integral_mc MT19937.seed MT19937.random 1 1 func_identity (PyInt 1) None
         (snd (integral_mc MT19937.seed MT19937.random 1 1 func_identity
                 (PyInt 1) (Some 2) demo_world))) = Return 1%float.
Proof. split; [| split]; vm_compute; reflexivity. Qed.

(** C7 (as amended) on two concrete calls in sequence. *)
Lemma seeded_call_ignores_history_witness :
  fst (integral_mc MT19937.seed MT19937.random 5.5 2.5 func_half (PyInt 7)
         (Some 3)
         (snd (integral_mc MT19937.seed MT19937.random 1 1 func_identity
                 (PyInt 1) (Some 2) demo_world))) =
  fst (integral_mc MT19937.seed MT19937.random 5.5 2.5 func_half (PyInt 7)
         (Some 3) demo_world) /\
  integral_mc MT19937.seed MT19937.random 5.5 2.5 func_half (PyInt 7) None
    (snd (integral_mc MT19937.seed MT19937.random 1 1 func_identity
            (PyInt 1) (Some 2) demo_world)) =
  integral_mc MT19937.seed MT19937.random 5.5 2.5 func_half (PyInt 7) None
    (World (snd (sample_points MT19937.random 1 1 (Z.to_nat 1)
                   (start_state MT19937.seed (Some 2) demo_world)))
           (stdout demo_world)).
Proof.
  apply (seeded_call_ignores_history MT19937.state MT19937.seed MT19937.random
           1 1 func_identity 1 (Some 2) 5.5 2.5 func_half (PyInt 7) 3
           demo_world);
    [lia | vm_compute; reflexivity].
Defined.

(** C8, as stated, fails for one fault: a [func] that raises StopIteration
    makes the call fail with RuntimeError, not with the StopIteration it
    raised. *)
Lemma stop_iteration_reaches_caller_as_runtime_error :
  (forall x, func_exhausted x = Raise StopIteration) /\
  first_fault func_exhausted
    (fst (sample_points MT19937.random 1 1 (Z.to_nat 3)
            (start_state MT19937.seed (Some 0) demo_world)))
    = Some (0%nat, StopIteration) /\
  fst (integral_mc MT19937.seed MT19937.random 1 1 func_exhausted (PyInt 3)
         (Some 0) demo_world)
    = Raise (RuntimeError "generator raised StopIteration") /\
  fst (integral_mc MT19937.seed MT19937.random 1 1 func_exhausted (PyInt 3)
         (Some 0) demo_world)
    <> Raise StopIteration.
Proof.
  assert (H : fst (integral_mc MT19937.seed MT19937.random 1 1 func_exhausted
                     (PyInt 3) (Some 0) demo_world)
              = Raise (RuntimeError "generator raised StopIteration"))
    by (vm_compute; reflexivity).
  split; [reflexivity |]. split; [vm_compute; reflexivity |].
  split; [exact H |]. rewrite H. discriminate.
Qed.

(** C8 (as amended) on a concrete call: [func_partial] raises at the second
    of three points. *)
Lemma function_fault_propagates_witness :
  first_fault func_partial
    (fst (sample_points MT19937.random 1 1 (Z.to_nat 3)
            (start_state MT19937.seed (Some 0) demo_world)))
    = Some (1%nat, FunctionFault "math domain error") /\
  integral_mc MT19937.seed MT19937.random 1 1 func_partial (PyInt 3) (Some 0)
    demo_world =
    (Raise (FunctionFault "math domain error"),
     World (snd (sample_points MT19937.random 1 1 2
                   (start_state MT19937.seed (Some 0) demo_world)))
           (stdout demo_world)).
Proof.
  assert (H : first_fault func_partial
                (fst (sample_points MT19937.random 1 1 (Z.to_nat 3)
                        (start_state MT19937.seed (Some 0) demo_world)))
              = Some (1%nat, FunctionFault "math domain error"))
    by (vm_compute; reflexivity).
  split; [exact H |].
  apply (proj1 (function_fault_propagates MT19937.state MT19937.seed
                  MT19937.random 1 1 func_partial 3 (Some 0) demo_world
                  ltac:(lia)));
    [exact H | discriminate].
Defined.

(** C10 on a concrete call: [xmax = -1.5]. *)
Lemma usage_example_negative_xmax_witness :
  lt0 (PyFloat (-1.5)) = true /\
  usage_example MT19937.seed MT19937.random quad_midpoint draw_elementwise
    (PyFloat (-1.5))
    (PyInt DEFAULT_POINTS) func_identity demo_world =
    (Return tt,
     World (gen demo_world)
           (stdout demo_world ++ [Say "xmax must be a positive number"])).
Proof.
  split; [reflexivity |].
  exact (proj1 (usage_example_negative_xmax MT19937.state MT19937.seed
                  MT19937.random quad_midpoint draw_elementwise
                    (PyFloat (-1.5))
                  (PyInt DEFAULT_POINTS) func_identity demo_world eq_refl)).
Defined.

(** X2 on a concrete call. *)
Lemma single_sample_estimate_witness :
  exists x y,
    fst (sample_points MT19937.random 1 1 1
           (start_state MT19937.seed (Some 0) demo_world)) = [(x, y)] /\
    fst (integral_mc MT19937.seed MT19937.random 1 1 func_identity (PyInt 1)
           (Some 0) demo_world)
      = Return ((if under_curve func_identity (x, y) then 1 else 0)
                * (1 * 1))%float.
Proof.
  apply (single_sample_estimate MT19937.state MT19937.seed MT19937.random
           1 1 func_identity (Some 0) demo_world).
  vm_compute. reflexivity.
Defined.

(** ** Order, sign and exact cases of the float operations

    What the further properties need of the floats: exact products and
    quotients ([1 * a], [n / n], [0 / n]), transitivity of the order, the
    range of [a + (b - a) * u] for [a = 0], quotients in the unit interval,
    and the sign of a difference, quotient or product. *)

Module FloatOrder.

Lemma sub_zero_r (b : float) : (b - 0)%float = b.
Proof.
  apply Prim2SF_inj. rewrite sub_spec.
  change (Prim2SF 0) with (S754_zero false).
  destruct (Prim2SF b) as [[] | [] | | s m e]; reflexivity.
Qed.

Lemma SFmul_comm x y : SFmul prec emax x y = SFmul prec emax y x.
Proof.
  destruct x as [sx | sx | | sx mx ex], y as [sy | sy | | sy my ey];
    cbn [SFmul]; rewrite ?(xorb_comm sx sy); try reflexivity.
  now rewrite (Pos.mul_comm mx my), (Z.add_comm ex ey).
Qed.

Lemma mul_comm (x y : float) : (x * y)%float = (y * x)%float.
Proof. apply Prim2SF_inj. rewrite !mul_spec. apply SFmul_comm. Qed.

(** Multiplying by one is exact. *)
Lemma SFmul_one_l x :
  valid_binary x = true ->
  SFmul prec emax (S754_finite false 4503599627370496 (-52)) x = x.
Proof.
  intros Hv. destruct x as [s | s | | s m e]; try reflexivity.
  destruct (FloatFacts.valid_finite _ _ _ Hv) as [Hc He].
  cbn [SFmul xorb].
  assert (Hfine : -52 + e <=
                  fexp prec emax (Zdigits2 (Zpos (4503599627370496 * m)) + (-52 + e))).
  { apply (FloatFacts.mul_operand_fine 4503599627370496 (-52) m e); [reflexivity | exact Hc]. }
  assert (Hd : Zdigits2 (Zpos (4503599627370496 * m)) = Zdigits2 (Zpos m) + 52).
  { pose proof (FloatFacts.Zdigits2_bounds (Zpos m) ltac:(lia)) as [Hlo Hhi].
    pose proof (FloatFacts.Zdigits2_pos (Zpos m) ltac:(lia)).
    apply FloatFacts.Zdigits2_unique; [lia |].
    rewrite Pos2Z.inj_mul. change (Zpos 4503599627370496) with (2 ^ 52).
    replace (Zdigits2 (Zpos m) + 52 - 1) with (52 + (Zdigits2 (Zpos m) - 1)) by lia.
    replace (Zdigits2 (Zpos m) + 52) with (52 + Zdigits2 (Zpos m)) by lia.
    rewrite !Z.pow_add_r by lia.
    assert (0 < 2 ^ 52) by lia. nia. }
  destruct (FloatFacts.round_aux_spec s (Zpos (4503599627370496 * m)) (-52 + e)
              loc_Exact ltac:(lia) Hfine) as (m1 & _ & Hm1 & He2 & ->).
  unfold FloatFacts.canon in Hc.
  assert (E1 : fexp prec emax (Zdigits2 (Zpos (4503599627370496 * m)) + (-52 + e)) = e).
  { rewrite Hd. replace (Zdigits2 (Zpos m) + 52 + (-52 + e)) with (Zdigits2 (Zpos m) + e) by lia.
    exact Hc. }
  rewrite E1 in *.
  replace (e - (-52 + e)) with 52 in Hm1 by lia.
  assert (Hm1' : m1 = Zpos m).
  { rewrite Hm1; [| reflexivity |].
    - rewrite Pos2Z.inj_mul. change (Zpos 4503599627370496) with (2 ^ 52).
      rewrite Z.mul_comm. apply Z.div_mul. lia.
    - rewrite Pos2Z.inj_mul. change (Zpos 4503599627370496) with (2 ^ 52).
      rewrite Z.mul_comm. apply Z.mod_mul. lia. }
  subst m1. rewrite Hc. rewrite Z.sub_diag. change (2 ^ 0) with 1. rewrite Z.div_1_r.
  replace (e <=? emax - prec) with true by (symmetry; apply Z.leb_le; exact He).
  reflexivity.
Qed.

Lemma mul_one_l (a : float) : (1 * a)%float = a.
Proof.
  apply Prim2SF_inj. rewrite mul_spec.
  change (Prim2SF 1) with (S754_finite false 4503599627370496 (-52)).
  apply SFmul_one_l, Prim2SF_valid.
Qed.


(** A positive integer divided by itself is exactly one. *)
Lemma SFdiv_self pn :
  SFdiv prec emax (S754_finite false pn 0) (S754_finite false pn 0)
  = S754_finite false 4503599627370496 (-52).
Proof.
  unfold SFdiv, SFdiv_core_binary. cbn [xorb].
  rewrite !Z.add_0_r, !Z.sub_diag.
  change (Z.min (fexp prec emax 0) 0) with (-53).
  change (0 - -53) with 53. cbv iota.
  rewrite Z.shiftl_mul_pow2 by lia.
  pose proof (Z_div_mod (Zpos pn * 2 ^ 53) (Zpos pn) ltac:(lia)) as Hdm.
  destruct (Z.div_eucl (Zpos pn * 2 ^ 53) (Zpos pn)) as [q r].
  destruct Hdm as [Hq Hr].
  assert (Eq : q = 2 ^ 53) by nia.
  assert (Er : r = 0) by nia.
  subst q r. rewrite FloatFacts.new_location_exact. reflexivity.
Qed.

Lemma int_truediv_self n : 0 < n -> int_truediv n n = Return 1%float.
Proof.
  intros Hn. unfold int_truediv.
  destruct (Z.eqb_spec n 0) as [E | _]; [lia |].
  destruct n as [| pn | pn]; try lia.
  cbn [Z2SF]. rewrite SFdiv_self. reflexivity.
Qed.

Lemma int_truediv_zero n : 0 < n -> int_truediv 0 n = Return 0%float.
Proof.
  intros Hn. unfold int_truediv.
  destruct (Z.eqb_spec n 0) as [E | _]; [lia |].
  destruct n as [| pn | pn]; try lia. reflexivity.
Qed.

(** Zero times a finite float is a zero. *)
Lemma mul_zero_l (a : float) :
  is_finite a = true -> is_zero (0 * a) = true.
Proof.
  unfold is_finite, is_nan, is_infinity, is_zero.
  rewrite !eqb_spec, abs_spec, mul_spec.
  change (Prim2SF 0) with (S754_zero false).
  change (Prim2SF infinity) with (S754_infinity false).
  change (Prim2SF zero) with (S754_zero false).
  destruct (Prim2SF a) as [s | [] | | s m e]; simpl; intros H;
    try discriminate H; reflexivity.
Qed.

(** *** Order *)

Ltac fold_pos_compare :=
  repeat match goal with
  | |- context [Pos.compare_cont Eq ?a ?b] =>
      change (Pos.compare_cont Eq a b) with (Pos.compare a b)
  | H : context [Pos.compare_cont Eq ?a ?b] |- _ =>
      change (Pos.compare_cont Eq a b) with (Pos.compare a b) in H
  end.

Ltac by_compare_cases ea ma eb mb ec mc :=
  fold_pos_compare;
  destruct (Z.compare_spec ea eb), (Z.compare_spec eb ec),
    (Z.compare_spec ea ec); try lia; try discriminate; try reflexivity;
  destruct (Pos.compare_spec ma mb), (Pos.compare_spec mb mc),
    (Pos.compare_spec ma mc); cbn [CompOpp] in *;
    try lia; try discriminate; try reflexivity.

(** [<=] on floats is transitive. *)
Lemma SFleb_trans a b c :
  SFleb a b = true -> SFleb b c = true -> SFleb a c = true.
Proof.
  unfold SFleb.
  destruct a as [sa | [] | | [] ma ea], b as [sb | [] | | [] mb eb];
    cbn [SFcompare]; try discriminate;
  destruct c as [sc | [] | | [] mc ec];
    cbn [SFcompare]; try discriminate; try reflexivity; intros H1 H2;
  by_compare_cases ea ma eb mb ec mc.
Qed.

Lemma leb_trans (a b c : float) :
  (a <=? b)%float = true -> (b <=? c)%float = true -> (a <=? c)%float = true.
Proof. rewrite !leb_spec. apply SFleb_trans. Qed.

(** [a < b] excludes [b <= a]. *)
Lemma SFltb_not_leb a b : SFltb a b = true -> SFleb b a = false.
Proof.
  unfold SFltb, SFleb.
  destruct a as [sa | [] | | [] ma ea], b as [sb | [] | | [] mb eb];
    cbn [SFcompare]; try discriminate; try reflexivity; intros H;
  fold_pos_compare;
  rewrite (Z.compare_antisym ea eb), (Pos.compare_antisym ma mb);
  destruct (ea ?= eb); cbn [CompOpp] in *; try discriminate; try reflexivity;
  destruct (ma ?= mb)%positive; cbn [CompOpp] in *; try discriminate; reflexivity.
Qed.

Lemma ltb_not_leb (a b : float) :
  (a <? b)%float = true -> (b <=? a)%float = false.
Proof. rewrite ltb_spec, leb_spec. apply SFltb_not_leb. Qed.


(** Adding zero on the left changes no comparison. *)
Lemma SFcompare_add_zero_l v c :
  SFcompare (SFadd prec emax (S754_zero false) v) c = SFcompare v c /\
  SFcompare c (SFadd prec emax (S754_zero false) v) = SFcompare c v.
Proof.
  destruct v as [[] | [] | | [] m e]; cbn [SFadd];
    destruct c as [sc | [] | | [] mc ec]; split; reflexivity.
Qed.

Lemma leb_add_zero_l (v c : float) :
  (0 + v <=? c)%float = (v <=? c)%float /\
  (c <=? 0 + v)%float = (c <=? v)%float.
Proof.
  rewrite !leb_spec, add_spec. change (Prim2SF 0) with (S754_zero false).
  unfold SFleb, SF64add.
  destruct (SFcompare_add_zero_l (Prim2SF v) (Prim2SF c)) as [-> ->].
  split; reflexivity.
Qed.

(** [random.uniform(0, b)] on a draw in [[0, 1]] lies in [[0, b]]. *)
Lemma uniform_within (b u : float) :
  (0 <=? b)%float = true -> is_finite b = true -> in_unit u = true ->
  within b (0 + (b - 0) * u) = true.
Proof.
  intros Hb Hfin Hu. unfold in_unit in Hu. apply andb_prop in Hu.
  destruct Hu as [Hu0 Hu1].
  rewrite sub_zero_r, mul_comm.
  destruct (FloatFacts.mul_unit_le u b Hu0 Hu1 Hb Hfin) as [H0 H1].
  unfold within.
  destruct (leb_add_zero_l (u * b) b) as [-> _].
  destruct (leb_add_zero_l (u * b) 0) as [_ ->].
  now rewrite H0, H1.
Qed.


(** *** Division of canonical operands *)

(** The quotient digits [SFdiv] hands to the rounding step: enough of them,
    and a value that, times the divisor, does not exceed the dividend. *)
Lemma div_core_spec m1 e1 m2 e2 :
  0 < m1 -> 0 < m2 ->
  let '(q, e, l) := SFdiv_core_binary prec emax m1 e1 m2 e2 in
  0 <= q /\ e <= fexp prec emax (Zdigits2 q + e) /\
  ((l = loc_Exact /\
    (FloatFacts.F2R q e * FloatFacts.F2R m2 e2 = FloatFacts.F2R m1 e1)%R) \/
   (FloatFacts.F2R q e * FloatFacts.F2R m2 e2 < FloatFacts.F2R m1 e1)%R).
Proof.
  intros H1 H2. unfold SFdiv_core_binary.
  set (d1 := Zdigits2 m1). set (d2 := Zdigits2 m2).
  set (e := Z.min (fexp prec emax (d1 + e1 - (d2 + e2))) (e1 - e2)).
  assert (He : e <= e1 - e2) by (unfold e; lia).
  assert (Hm : (match e1 - e2 - e with
                | Z0 => m1
                | Zpos _ => Z.shiftl m1 (e1 - e2 - e)
                | Zneg _ => 0
                end) = m1 * 2 ^ (e1 - e2 - e)).
  { destruct (e1 - e2 - e) as [| p | p] eqn:Es; try lia.
    rewrite Z.shiftl_mul_pow2 by lia. reflexivity. }
  rewrite Hm. clear Hm.
  set (s := e1 - e2 - e) in *.
  assert (Hs : 0 <= s) by (unfold s; lia).
  assert (Hp : 0 < 2 ^ s) by (apply Z.pow_pos_nonneg; lia).
  pose proof (Z_div_mod (m1 * 2 ^ s) m2 ltac:(lia)) as Hdm.
  destruct (Z.div_eucl (m1 * 2 ^ s) m2) as [q r]. destruct Hdm as [Hq Hr].
  assert (Hq0 : 0 <= q) by nia.
  split; [exact Hq0 |]. split.
  - apply Z.le_trans with (fexp prec emax (d1 + e1 - (d2 + e2)));
      [unfold e; lia |].
    apply FloatFacts.fexp_mono.
    destruct (Z_le_gt_dec (d1 + s - d2) 0) as [Hsmall | Hbig].
    + pose proof (FloatFacts.Zdigits2_nonneg q). unfold s in *. lia.
    + assert (d1 + s - d2 <= Zdigits2 q); [| unfold s in *; lia].
      replace (d1 + s - d2) with ((d1 + s - d2 - 1) + 1) by lia.
      apply FloatFacts.Zdigits2_ge; [lia |].
      pose proof (FloatFacts.Zdigits2_bounds m1 H1) as [Clo _].
      pose proof (FloatFacts.Zdigits2_bounds m2 H2) as [_ Nhi].
      fold d1 in Clo. fold d2 in Nhi.
      assert (Hd2 : 0 < d2) by (apply FloatFacts.Zdigits2_pos; lia).
      assert (Hd1 : 0 < d1) by (apply FloatFacts.Zdigits2_pos; lia).
      assert (Ht : 2 ^ d2 * 2 ^ (d1 + s - d2 - 1) = 2 ^ (d1 - 1) * 2 ^ s).
      { rewrite <- !Z.pow_add_r by lia. f_equal. lia. }
      assert (Hpt : 0 < 2 ^ (d1 + s - d2 - 1)) by (apply Z.pow_pos_nonneg; lia).
      destruct (Z_le_gt_dec (2 ^ (d1 + s - d2 - 1)) q) as [H | H];
        [exact H | exfalso].
      assert (q + 1 <= 2 ^ (d1 + s - d2 - 1)) by lia.
      assert (m2 * (q + 1) <= m2 * 2 ^ (d1 + s - d2 - 1))
        by (apply Z.mul_le_mono_nonneg_l; lia).
      assert (m2 * 2 ^ (d1 + s - d2 - 1) < 2 ^ d2 * 2 ^ (d1 + s - d2 - 1))
        by (apply Z.mul_lt_mono_pos_r; lia).
      assert (2 ^ (d1 - 1) * 2 ^ s <= m1 * 2 ^ s)
        by (apply Z.mul_le_mono_nonneg_r; lia).
      lia.
  - assert (Hl : (FloatFacts.F2R q e * FloatFacts.F2R m2 e2
                  = FloatFacts.F2R (q * m2) (e + e2))%R)
      by (symmetry; apply FloatFacts.F2R_mul).
    assert (Hr1 : FloatFacts.F2R m1 e1 = FloatFacts.F2R (m1 * 2 ^ s) (e + e2)).
    { replace e1 with (e + e2 + s) by (unfold s; lia).
      apply FloatFacts.F2R_shift. lia. }
    rewrite Hl, Hr1.
    destruct (Z.eq_dec r 0) as [-> | Hr0].
    + left. split; [apply FloatFacts.new_location_exact |].
      f_equal. lia.
    + right. unfold FloatFacts.F2R.
      apply Rmult_lt_compat_r; [apply FloatFacts.bpow_pos |]. apply IZR_lt. lia.
Qed.

(** The quotient of two positive finite floats is a valid float of positive
    sign; it is at most one when the dividend does not exceed the divisor. *)
Lemma SFdiv_pos p1 e1 p2 e2 :
  let q := SFdiv prec emax (S754_finite false p1 e1) (S754_finite false p2 e2) in
  valid_binary q = true /\
  SFleb (S754_zero false) q = true /\
  (FloatFacts.canon (Zpos p1) e1 -> FloatFacts.canon (Zpos p2) e2 ->
   SFleb (S754_finite false p1 e1) (S754_finite false p2 e2) = true ->
   SFleb q (S754_finite false 4503599627370496 (-52)) = true).
Proof.
  unfold SFdiv. cbn [xorb].
  pose proof (div_core_spec (Zpos p1) e1 (Zpos p2) e2 ltac:(lia) ltac:(lia)) as H.
  destruct (SFdiv_core_binary prec emax (Zpos p1) e1 (Zpos p2) e2) as [[q e] l].
  destruct H as (Hq & Hfine & Hv). cbv zeta.
  split; [now apply FloatFacts.round_aux_valid |]. split.
  - destruct (FloatFacts.round_aux_cases false q e l Hq Hfine)
      as [-> | [-> | (p & e' & -> & _)]]; reflexivity.
  - intros C1 C2 Hle.
    pose proof (FloatFacts.value_of_SFleb _ _ _ _ C1 C2 Hle) as Hval.
    pose proof (FloatFacts.F2R_pos p2 e2) as Hpos.
    apply FloatFacts.round_aux_le; try assumption.
    + reflexivity.
    + unfold emax, prec. lia.
    + rewrite FloatFacts.F2R_one.
      destruct Hv as [[Hl Hv] | Hv]; [left; split; [exact Hl |] | right]; nra.
Qed.

(** [x / y] for [0 <= x <= y], [y] positive and finite, lies in [[0, 1]]. *)
Lemma div_unit (x y : float) :
  (0 <=? x)%float = true -> (x <=? y)%float = true ->
  (0 <? y)%float = true -> is_finite y = true ->
  (0 <=? x / y)%float = true /\ (x / y <=? 1)%float = true.
Proof.
  unfold is_finite, is_nan, is_infinity.
  rewrite !leb_spec, !ltb_spec, !eqb_spec, abs_spec, div_spec.
  pose proof (Prim2SF_valid x) as Vx. pose proof (Prim2SF_valid y) as Vy.
  change (Prim2SF 0) with (S754_zero false).
  change (Prim2SF 1) with (S754_finite false 4503599627370496 (-52)).
  change (Prim2SF infinity) with (S754_infinity false).
  intros Hx0 Hxy Hy0 Hfin.
  destruct (Prim2SF y) as [sy | [] | | [] py ey];
    simpl in Hy0, Hfin; try discriminate.
  destruct (FloatFacts.SFleb_zero_cases _ Hx0) as [[sx Ex] | [Ex | (px & ex & Ex)]];
    rewrite Ex in *; clear Ex; [| discriminate Hxy |].
  - split; destruct sx; reflexivity.
  - destruct (FloatFacts.valid_finite _ _ _ Vx) as [Cx _].
    destruct (FloatFacts.valid_finite _ _ _ Vy) as [Cy _].
    destruct (SFdiv_pos px ex py ey) as (_ & H0 & H1).
    split; [exact H0 | now apply H1].
Qed.


(** *** Signs *)

Lemma signed_round_aux s mx ex lx :
  0 <= mx -> ex <= fexp prec emax (Zdigits2 mx + ex) ->
  signed s (binary_round_aux prec emax s mx ex lx).
Proof.
  intros Hm Hfine. pose proof (FloatFacts.round_aux_valid s mx ex lx Hm Hfine) as Hv.
  destruct (FloatFacts.round_aux_cases s mx ex lx Hm Hfine)
    as [E | [E | (p & e & E & _)]]; rewrite E in *; unfold signed; eauto 6.
Qed.

Lemma digits2_pos_iter_xO m d :
  Zpos (digits2_pos (Pos.iter xO m d)) = Zpos (digits2_pos m) + Zpos d.
Proof.
  induction d as [| d IH] using Pos.peano_ind.
  - cbn [Pos.iter digits2_pos]. lia.
  - rewrite Pos.iter_succ. cbn [digits2_pos]. lia.
Qed.

Lemma signed_binary_round s mx ex :
  signed s (binary_round prec emax s mx ex).
Proof.
  unfold binary_round, shl_align.
  destruct (fexp prec emax (Zpos (digits2_pos mx) + ex) - ex) as [| d | d] eqn:Ed.
  - apply signed_round_aux; [lia |]. cbn [Zdigits2]. lia.
  - apply signed_round_aux; [lia |]. cbn [Zdigits2]. lia.
  - apply signed_round_aux; [lia |]. cbn [Zdigits2].
    rewrite digits2_pos_iter_xO.
    replace (Zpos (digits2_pos mx) + Zpos d
             + fexp prec emax (Zpos (digits2_pos mx) + ex))
      with (Zpos (digits2_pos mx) + ex) by lia.
    lia.
Qed.

Lemma signed_binary_normalize m e :
  exists s, signed s (binary_normalize prec emax m e false).
Proof.
  destruct m as [| p | p]; cbn [binary_normalize].
  - exists false. left. reflexivity.
  - exists false. apply signed_binary_round.
  - exists true. apply signed_binary_round.
Qed.

(** The difference of two finite floats is not a NaN. *)
Lemma signed_sub x y :
  valid_binary x = true -> valid_binary y = true ->
  (exists sx, x = S754_zero sx) \/ (exists sx px ex, x = S754_finite sx px ex) ->
  (exists sy, y = S754_zero sy) \/ (exists sy py ey, y = S754_finite sy py ey) ->
  exists s, signed s (SFsub prec emax x y).
Proof.
  intros Vx Vy [[sx ->] | (sx & px & ex & ->)] [[sy ->] | (sy & py & ey & ->)];
    cbn [SFsub].
  - destruct sx, sy; eexists; left; reflexivity.
  - exists (negb sy). right; right. eauto.
  - exists sx. right; right. eauto.
  - apply signed_binary_normalize.
Qed.

Lemma signed_abs s x : signed s x -> signed false (SFabs x).
Proof.
  intros [-> | [-> | (p & e & -> & Hv)]]; cbn [SFabs]; unfold signed; eauto 6.
Qed.

Lemma signed_div s x sy py ey :
  signed s x -> valid_binary (S754_finite sy py ey) = true ->
  signed (xorb s sy) (SFdiv prec emax x (S754_finite sy py ey)).
Proof.
  intros [-> | [-> | (p & e & -> & Hv)]] Vy; cbn [SFdiv].
  - left; reflexivity.
  - right; left; reflexivity.
  - pose proof (div_core_spec (Zpos p) e (Zpos py) ey ltac:(lia) ltac:(lia)) as H.
    destruct (SFdiv_core_binary prec emax (Zpos p) e (Zpos py) ey) as [[q eq] l].
    destruct H as (Hq & Hfine & _). now apply signed_round_aux.
Qed.

Lemma signed_mul s x sy py ey :
  signed s x -> valid_binary (S754_finite sy py ey) = true ->
  signed (xorb s sy) (SFmul prec emax x (S754_finite sy py ey)).
Proof.
  intros [-> | [-> | (p & e & -> & Hv)]] Vy; cbn [SFmul].
  - left; reflexivity.
  - right; left; reflexivity.
  - destruct (FloatFacts.valid_finite _ _ _ Hv) as [C1 _].
    destruct (FloatFacts.valid_finite _ _ _ Vy) as [C2 _].
    apply signed_round_aux; [lia |].
    now apply FloatFacts.mul_operand_fine.
Qed.

Lemma signed_false_nonneg x : signed false x -> SFleb (S754_zero false) x = true.
Proof. intros [-> | [-> | (p & e & -> & _)]]; reflexivity. Qed.

Lemma signed_true_nonpos x : signed true x -> SFleb x (S754_zero false) = true.
Proof. intros [-> | [-> | (p & e & -> & _)]]; reflexivity. Qed.

Lemma finite_cases (x : float) :
  is_finite x = true ->
  (exists s, Prim2SF x = S754_zero s) \/
  (exists s p e, Prim2SF x = S754_finite s p e).
Proof.
  unfold is_finite, is_nan, is_infinity. rewrite !eqb_spec, abs_spec.
  change (Prim2SF infinity) with (S754_infinity false).
  destruct (Prim2SF x) as [s | [] | | s p e]; simpl; intros H;
    try discriminate H; eauto.
Qed.

End FloatOrder.

(** ** Further properties of the estimator and of the comparison *)

(** X9. The comparison [abs(reference - estimate) / reference * 100] of
    [usage_example], for finite operands and a non-zero reference, returns a
    number that has the sign of the reference: it is [>= 0] for a positive
    reference and [<= 0] for a negative one (the absolute value is taken of
    the numerator only). *)
Theorem difference_percent_sign (reference estimate : float) :
  is_finite reference = true -> is_finite estimate = true ->
  is_zero reference = false ->
  exists d,
    difference_percent reference estimate = Return d /\
    ((0 <? reference)%float = true -> (0 <=? d)%float = true) /\
    ((reference <? 0)%float = true -> (d <=? 0)%float = true).
Proof.
  intros Fr Fe Hz. unfold difference_percent, float_truediv. rewrite Hz.
  eexists. split; [reflexivity |].
  rewrite !leb_spec, !ltb_spec, mul_spec, div_spec, abs_spec, sub_spec.
  pose proof (Prim2SF_valid reference) as Vr.
  pose proof (Prim2SF_valid estimate) as Ve.
  pose proof (FloatOrder.finite_cases reference Fr) as Cr.
  pose proof (FloatOrder.finite_cases estimate Fe) as Ce.
  unfold is_zero in Hz. rewrite eqb_spec in Hz.
  change (Prim2SF 0) with (S754_zero false).
  change (Prim2SF zero) with (S754_zero false) in Hz.
  change (Prim2SF 100) with (S754_finite false 7036874417766400 (-46)).
  destruct (FloatOrder.signed_sub _ _ Vr Ve Cr Ce) as [s0 Hsub].
  apply FloatOrder.signed_abs in Hsub.
  destruct Cr as [[s Er] | (s & p & e & Er)]; rewrite Er in *;
    [destruct s; discriminate Hz |].
  pose proof (FloatOrder.signed_div _ _ s p e Hsub Vr) as Hdiv.
  pose proof (FloatOrder.signed_mul _ _ false 7036874417766400 (-46) Hdiv
                eq_refl) as Hmul.
  cbn [xorb] in Hmul. rewrite xorb_false_r in Hmul.
  unfold SF64mul, SF64div, SF64sub.
  destruct s; split; intros H; try discriminate H.
  - now apply FloatOrder.signed_true_nonpos.
  - now apply FloatOrder.signed_false_nonneg.
Qed.

Section Coverage.

Variable rng : Type.
Variable random_seed : Z -> rng.
Variable random_random : rng -> float * rng.
Variable quad :
  (float -> outcome float) -> float -> float -> outcome (float * float).
Variable draw : (float -> outcome float) -> pynum -> outcome unit.

Lemma advance_succ_r k (g : rng) :
  advance random_random (S k) g =
  advance random_random k (snd (random_random g)).
Proof. unfold advance. apply Nat.iter_succ_r. Qed.

Lemma sample_points_advance xmax ymax k : forall g,
  snd (sample_points random_random xmax ymax k g) =
  advance random_random (2 * k) g.
Proof.
  induction k as [| k IH]; intros g; [reflexivity |].
  replace (2 * S k)%nat with (S (S (2 * k))) by lia.
  rewrite !advance_succ_r, <- IH. cbn [sample_points].
  destruct (random_random g) as [u g1]. cbn [snd].
  destruct (random_random g1) as [v g2]. cbn [snd].
  destruct (sample_points random_random xmax ymax k g2). reflexivity.
Qed.

Lemma integral_mc_stdout xmax ymax func points_number seed (w : world rng) :
  stdout (snd (integral_mc random_seed random_random xmax ymax func
                 points_number seed w)) = stdout w.
Proof.
  destruct points_number as [n | f].
  - destruct (Z_lt_le_dec n 0) as [Hneg | Hpos].
    + unfold integral_mc, rejects. cbn [lt0].
      replace (n <? 0) with true by (symmetry; apply Z.ltb_lt; lia).
      reflexivity.
    + rewrite (integral_mc_int_spec rng random_seed random_random) by lia.
      cbv zeta.
      destruct (sample_points random_random xmax ymax (Z.to_nat n)
                  (start_state random_seed seed w)) as [points g'].
      destruct (first_fault func points) as [[k e] |]; [reflexivity |].
      destruct (int_truediv (count_under func points) n); reflexivity.
  - unfold integral_mc, rejects. cbn [is_int negb]. rewrite orb_true_r.
    reflexivity.
Qed.

(** X3. [integral_mc] prints nothing, whatever its arguments and whether it
    returns or raises. *)
Theorem integral_mc_prints_nothing xmax ymax func points_number seed
    (w : world rng) :
  stdout (snd (integral_mc random_seed random_random xmax ymax func
                 points_number seed w)) = stdout w.
Proof. exact (integral_mc_stdout xmax ymax func points_number seed w). Qed.

(** X4. A call that passes the guard consumes exactly two values of
    [random.random()] per sampled point, from the state it starts sampling
    from: [2 * points_number] when [func] returns throughout, [2 * (k + 1)]
    when [func] raises at point [k] (counted from 0). *)
Theorem integral_mc_draw_count xmax ymax func n seed (w : world rng) :
  0 <= n ->
  gen (snd (integral_mc random_seed random_random xmax ymax func (PyInt n)
              seed w)) =
  advance random_random
    (match first_fault func
             (fst (sample_points random_random xmax ymax (Z.to_nat n)
                     (start_state random_seed seed w))) with
     | Some (k, _) => 2 * S k
     | None => 2 * Z.to_nat n
     end)
    (start_state random_seed seed w).
Proof.
  intros Hn.
  rewrite (integral_mc_int_spec rng random_seed random_random) by lia.
  cbv zeta.
  pose proof (sample_points_advance xmax ymax (Z.to_nat n)
                (start_state random_seed seed w)) as Ha.
  destruct (sample_points random_random xmax ymax (Z.to_nat n)
              (start_state random_seed seed w)) as [points g'].
  cbn [fst snd] in *.
  destruct (first_fault func points) as [[k e] |].
  - cbn [snd gen]. apply sample_points_advance.
  - destruct (int_truediv (count_under func points) n); exact Ha.
Qed.


Lemma draws_two_more k (g : rng) :
  draws random_random (2 * S k) g =
  fst (random_random g)
  :: fst (random_random (snd (random_random g)))
  :: draws random_random (2 * k)
       (snd (random_random (snd (random_random g)))).
Proof. replace (2 * S k)%nat with (S (S (2 * k))) by lia. reflexivity. Qed.

Lemma sample_points_within xmax ymax rounds : forall (g : rng),
  (0 <=? xmax)%float = true -> is_finite xmax = true ->
  (0 <=? ymax)%float = true -> is_finite ymax = true ->
  forallb in_unit (draws random_random (2 * rounds) g) = true ->
  forallb (fun p => within xmax (fst p) && within ymax (snd p))
    (fst (sample_points random_random xmax ymax rounds g)) = true.
Proof.
  intros g Hx Fx Hy Fy. revert g.
  induction rounds as [| k IH]; intros g Hd; [reflexivity |].
  rewrite draws_two_more in Hd. cbn [forallb] in Hd.
  apply andb_prop in Hd. destruct Hd as [Hu Hd].
  apply andb_prop in Hd. destruct Hd as [Hv Hd].
  cbn [sample_points].
  destruct (random_random g) as [u g1]. cbn [fst snd] in *.
  destruct (random_random g1) as [v g2]. cbn [fst snd] in *.
  specialize (IH g2 Hd).
  destruct (sample_points random_random xmax ymax k g2) as [rest g'].
  cbn [fst forallb snd] in *.
  rewrite (FloatOrder.uniform_within xmax v Hx Fx Hv).
  rewrite (FloatOrder.uniform_within ymax u Hy Fy Hu).
  exact IH.
Qed.

(** X5. Every sampled point lies in the rectangle [[0, xmax] x [0, ymax]]:
    for non-negative finite bounds and a generator whose values lie in
    [[0, 1]], both [0 <= x <= xmax] and [0 <= y <= ymax] hold in floats,
    rounding included. *)
Theorem sampled_points_in_rectangle xmax ymax rounds (g : rng) :
  (0 <=? xmax)%float = true -> is_finite xmax = true ->
  (0 <=? ymax)%float = true -> is_finite ymax = true ->
  forallb in_unit (draws random_random (2 * rounds) g) = true ->
  forallb (fun p => within xmax (fst p) && within ymax (snd p))
    (fst (sample_points random_random xmax ymax rounds g)) = true.
Proof. exact (sample_points_within xmax ymax rounds g). Qed.


Lemma first_fault_agree func1 func2 points :
  Forall (fun p => func1 (fst p) = func2 (fst p)) points ->
  first_fault func1 points = first_fault func2 points /\
  count_under func1 points = count_under func2 points.
Proof.
  unfold count_under.
  induction 1 as [| p rest Hp _ [IHf IHc]]; [split; reflexivity |].
  assert (Hu : under_curve func1 p = under_curve func2 p)
    by (unfold under_curve; now rewrite Hp).
  cbn [first_fault filter]. rewrite Hp, IHf, Hu. split; [reflexivity |].
  apply Nat2Z.inj in IHc.
  destruct (under_curve func2 p); cbn [List.length]; now rewrite IHc.
Qed.

Lemma sampled_abscissas_within xmax ymax rounds (g : rng) :
  (0 <=? xmax)%float = true -> is_finite xmax = true ->
  (0 <=? ymax)%float = true -> is_finite ymax = true ->
  forallb in_unit (draws random_random (2 * rounds) g) = true ->
  Forall (fun p => within xmax (fst p) = true /\ within ymax (snd p) = true)
    (fst (sample_points random_random xmax ymax rounds g)).
Proof.
  intros Hx Fx Hy Fy Hd.
  pose proof (sample_points_within xmax ymax rounds g Hx Fx Hy Fy Hd) as H.
  rewrite forallb_forall in H. apply Forall_forall. intros p Hp.
  apply andb_prop. now apply H.
Qed.

(** X6. [integral_mc] looks at [func] on [[0, xmax]] only: two functions
    that agree there (in value or in the exception raised) give the same
    outcome and leave the same state. *)
Theorem integral_mc_reads_func_on_domain xmax ymax func1 func2 n seed
    (w : world rng) :
  0 <= n ->
  (0 <=? xmax)%float = true -> is_finite xmax = true ->
  (0 <=? ymax)%float = true -> is_finite ymax = true ->
  forallb in_unit
    (draws random_random (2 * Z.to_nat n) (start_state random_seed seed w))
    = true ->
  (forall x, within xmax x = true -> func1 x = func2 x) ->
  integral_mc random_seed random_random xmax ymax func1 (PyInt n) seed w =
  integral_mc random_seed random_random xmax ymax func2 (PyInt n) seed w.
Proof.
  intros Hn Hx Fx Hy Fy Hd Hf.
  rewrite !(integral_mc_int_spec rng random_seed random_random) by lia.
  cbv zeta.
  pose proof (sampled_abscissas_within xmax ymax (Z.to_nat n)
                (start_state random_seed seed w) Hx Fx Hy Fy Hd) as Hin.
  destruct (sample_points random_random xmax ymax (Z.to_nat n)
              (start_state random_seed seed w)) as [points g'].
  cbn [fst] in Hin.
  destruct (first_fault_agree func1 func2 points) as [-> ->]; [| reflexivity].
  eapply Forall_impl; [| exact Hin]. intros p [Hp _]. now apply Hf.
Qed.

Lemma count_under_all func points :
  Forall (fun p => under_curve func p = true) points ->
  first_fault func points = None /\
  count_under func points = Z.of_nat (List.length points).
Proof.
  unfold count_under.
  induction 1 as [| p rest Hp _ [IHf IHc]]; [split; reflexivity |].
  cbn [first_fault filter]. rewrite Hp, IHf.
  unfold under_curve in Hp. destruct (func (fst p)); [| discriminate].
  split; [reflexivity |]. apply Nat2Z.inj in IHc. cbn [List.length].
  now rewrite IHc.
Qed.

Lemma count_under_none func points :
  Forall (fun p => exists fx, func (fst p) = Return fx /\
                              (snd p <=? fx)%float = false) points ->
  first_fault func points = None /\ count_under func points = 0.
Proof.
  unfold count_under.
  induction 1 as [| p rest (fx & Hf & Hp) _ [IHf IHc]]; [split; reflexivity |].
  cbn [first_fault filter]. unfold under_curve at 1. rewrite Hf, Hp, IHf.
  split; [reflexivity | exact IHc].
Qed.

(** X7. When [func] is at or above the rectangle height on [[0, xmax]],
    every point counts and the estimate is the rectangle area
    [xmax * ymax]. *)
Theorem estimate_saturates_at_area xmax ymax func n seed (w : world rng) :
  0 < n ->
  (0 <=? xmax)%float = true -> is_finite xmax = true ->
  (0 <=? ymax)%float = true -> is_finite ymax = true ->
  forallb in_unit
    (draws random_random (2 * Z.to_nat n) (start_state random_seed seed w))
    = true ->
  (forall x, within xmax x = true ->
     exists fx, func x = Return fx /\ (ymax <=? fx)%float = true) ->
  fst (integral_mc random_seed random_random xmax ymax func (PyInt n) seed w)
    = Return (xmax * ymax)%float.
Proof.
  intros Hn Hx Fx Hy Fy Hd Hf.
  rewrite (integral_mc_int_spec rng random_seed random_random) by lia.
  cbv zeta.
  pose proof (sampled_abscissas_within xmax ymax (Z.to_nat n)
                (start_state random_seed seed w) Hx Fx Hy Fy Hd) as Hin.
  pose proof (sample_points_length rng random_random xmax ymax (Z.to_nat n)
                (start_state random_seed seed w)) as Hlen.
  destruct (sample_points random_random xmax ymax (Z.to_nat n)
              (start_state random_seed seed w)) as [points g'].
  cbn [fst] in Hin, Hlen.
  destruct (count_under_all func points) as [-> ->].
  - eapply Forall_impl; [| exact Hin]. intros p [Hp Hq].
    destruct (Hf _ Hp) as (fx & Efx & Hfx).
    unfold under_curve. rewrite Efx.
    unfold within in Hq. apply andb_prop in Hq. destruct Hq as [_ Hq].
    exact (FloatOrder.leb_trans _ _ _ Hq Hfx).
  - rewrite Hlen, Z2Nat.id by lia.
    rewrite (FloatOrder.int_truediv_self n Hn). cbn [fst].
    now rewrite FloatOrder.mul_one_l.
Qed.

(** X8. When [func] is negative on [[0, xmax]], no point counts: the call
    returns [0 * (xmax * ymax)], which is zero whenever the area is finite. *)
Theorem estimate_vanishes_below_axis xmax ymax func n seed (w : world rng) :
  0 < n ->
  (0 <=? xmax)%float = true -> is_finite xmax = true ->
  (0 <=? ymax)%float = true -> is_finite ymax = true ->
  forallb in_unit
    (draws random_random (2 * Z.to_nat n) (start_state random_seed seed w))
    = true ->
  (forall x, within xmax x = true ->
     exists fx, func x = Return fx /\ (fx <? 0)%float = true) ->
  exists estimate,
    fst (integral_mc random_seed random_random xmax ymax func (PyInt n) seed w)
      = Return estimate /\
    estimate = (0 * (xmax * ymax))%float /\
    (is_finite (xmax * ymax) = true -> is_zero estimate = true).
Proof.
  intros Hn Hx Fx Hy Fy Hd Hf.
  rewrite (integral_mc_int_spec rng random_seed random_random) by lia.
  cbv zeta.
  pose proof (sampled_abscissas_within xmax ymax (Z.to_nat n)
                (start_state random_seed seed w) Hx Fx Hy Fy Hd) as Hin.
  destruct (sample_points random_random xmax ymax (Z.to_nat n)
              (start_state random_seed seed w)) as [points g'].
  cbn [fst] in Hin.
  destruct (count_under_none func points) as [-> ->].
  - eapply Forall_impl; [| exact Hin]. intros p [Hp Hq].
    destruct (Hf _ Hp) as (fx & Efx & Hfx). exists fx. split; [exact Efx |].
    unfold within in Hq. apply andb_prop in Hq. destruct Hq as [Hq0 _].
    destruct (snd p <=? fx)%float eqn:Hle; [| reflexivity].
    pose proof (FloatOrder.leb_trans _ _ _ Hq0 Hle) as H0.
    rewrite (FloatOrder.ltb_not_leb _ _ Hfx) in H0. discriminate H0.
  - rewrite (FloatOrder.int_truediv_zero n Hn). cbn [fst].
    eexists. split; [reflexivity |]. split; [reflexivity |].
    apply FloatOrder.mul_zero_l.
Qed.

(** X10. [usage_example] prints its three result lines together or not at
    all. Either [xmax] is rejected and the rejection message is all that is
    printed; or a step before the report (the reference integral,
    [func(xmax)], [integral_mc], the comparison) raises and nothing has been
    printed; or the three lines are printed in order, with the difference
    computed from the two other numbers, and then the drawing either raises,
    its exception ending the call after the report, or comes to its end. *)
Theorem usage_example_all_or_nothing xmax points_number func (w : world rng) :
  let r := usage_example random_seed random_random quad draw xmax points_number
             func w in
  (bad_xmax xmax = true /\ fst r = Return tt /\
   snd r = World (gen w) (stdout w ++ [Say "xmax must be a positive number"]))
  \/
  (bad_xmax xmax = false /\
   exists e, fst r = Raise e /\ stdout (snd r) = stdout w)
  \/
  (bad_xmax xmax = false /\
   exists estimate reference difference,
     difference_percent reference estimate = Return difference /\
     let report :=
       [SayNumber "Square calculated with Monte Carlo method = " estimate "";
        SayNumber "Square calculated by integral = " reference "";
        SayNumber "Difference = " difference " %"] in
     match draw func xmax with
     | Raise e => fst r = Raise e /\ stdout (snd r) = stdout w ++ report
     | Return _ =>
         fst r = Return tt /\
         stdout (snd r) = stdout w ++ report ++ [ShowPlot (as_float xmax)]
     end).
Proof.
  cbv zeta. unfold usage_example.
  destruct (bad_xmax xmax); [left; repeat split |].
  right. unfold compare_and_plot, bind, lift.
  destruct (quad func 0 (as_float xmax)) as [[reference err] | e];
    [| left; split; [reflexivity | exists e; split; reflexivity]].
  destruct (func (as_float xmax)) as [ymax | e];
    [| left; split; [reflexivity | exists e; split; reflexivity]].
  pose proof (integral_mc_stdout (as_float xmax) ymax func
                points_number None w) as Hout.
  destruct (integral_mc random_seed random_random (as_float xmax) ymax func
              points_number None w) as [[estimate | e] w'];
    cbn [fst snd] in *;
    [| left; split; [reflexivity | exists e; split; [reflexivity | exact Hout]]].
  destruct (difference_percent reference estimate) as [difference | e] eqn:Ed;
    [| left; split; [reflexivity | exists e; split; [reflexivity | exact Hout]]].
  right. split; [reflexivity |]. exists estimate, reference, difference.
  split; [exact Ed |].
  unfold print. cbn [fst snd gen stdout]. rewrite Hout.
  destruct (draw func xmax) as [[] | e]; cbn [fst snd stdout];
    (split; [reflexivity |]); rewrite <- !app_assoc; reflexivity.
Qed.

(** X11. [usage_example] does not check [points_number] itself: once [xmax]
    passed its guard and the reference integral and [func(xmax)] returned,
    the errors of [integral_mc] surface unchanged, with nothing printed and
    the generator untouched: ValueError for every [points_number] its guard
    rejects, ZeroDivisionError for [points_number = 0]. *)
Theorem usage_example_forwards_points_number xmax func (w : world rng) qr
    ymax :
  bad_xmax xmax = false ->
  quad func 0 (as_float xmax) = Return qr ->
  func (as_float xmax) = Return ymax ->
  (forall points_number,
     rejects points_number = true ->
     usage_example random_seed random_random quad draw xmax points_number func w =
       (Raise (ValueError "points_number must be a positive integer"), w)) /\
  usage_example random_seed random_random quad draw xmax (PyInt 0) func w =
    (Raise ZeroDivisionError, w).
Proof.
  intros Hx Hq Hf. unfold usage_example. rewrite Hx.
  unfold compare_and_plot, bind, lift. rewrite Hq, Hf. split.
  - intros points_number Hr. unfold integral_mc. rewrite Hr. reflexivity.
  - rewrite (integral_mc_int_spec rng random_seed random_random) by lia.
    cbn. now rewrite (world_eta rng).
Qed.

End Coverage.


(** X9 on a concrete comparison: reference 2, estimate 1.5. *)
Lemma difference_percent_sign_witness :
  exists d,
    difference_percent 2 1.5 = Return d /\
    ((0 <? 2)%float = true -> (0 <=? d)%float = true) /\
    ((2 <? 0)%float = true -> (d <=? 0)%float = true).
Proof.
  apply (difference_percent_sign 2 1.5); reflexivity.
Defined.

(** X4 on a concrete call: [func_partial] raises at the second of three
    points, after four draws. *)
Lemma integral_mc_draw_count_witness :
  gen (snd (integral_mc MT19937.seed MT19937.random 1 1 func_partial (PyInt 3)
              (Some 0) demo_world)) =
  advance MT19937.random
    (match first_fault func_partial
             (fst (sample_points MT19937.random 1 1 (Z.to_nat 3)
                     (start_state MT19937.seed (Some 0) demo_world))) with
     | Some (k, _) => 2 * S k
     | None => 2 * Z.to_nat 3
     end)
    (start_state MT19937.seed (Some 0) demo_world).
Proof.
  apply (integral_mc_draw_count MT19937.state MT19937.seed MT19937.random
           1 1 func_partial 3 (Some 0) demo_world).
  lia.
Defined.

(** X5 on the first four points drawn after [random.seed(3)]. *)
Lemma sampled_points_in_rectangle_witness :
  forallb (fun p => within 5.5 (fst p) && within 2.5 (snd p))
    (fst (sample_points MT19937.random 5.5 2.5 4 (MT19937.seed 3))) = true.
Proof.
  apply (sampled_points_in_rectangle MT19937.state MT19937.random 5.5 2.5 4
           (MT19937.seed 3));
    [reflexivity | reflexivity | reflexivity | reflexivity
    | vm_compute; reflexivity].
Defined.

(** X6 on a concrete pair: the identity, and the identity that raises on
    negative numbers. *)
Lemma integral_mc_reads_func_on_domain_witness :
  integral_mc MT19937.seed MT19937.random 1 1 func_identity (PyInt 5) (Some 3)
    demo_world =
  integral_mc MT19937.seed MT19937.random 1 1 func_guarded (PyInt 5) (Some 3)
    demo_world.
Proof.
  apply (integral_mc_reads_func_on_domain MT19937.state MT19937.seed
           MT19937.random 1 1 func_identity func_guarded 5 (Some 3)
           demo_world);
    [lia | reflexivity | reflexivity | reflexivity | reflexivity
    | vm_compute; reflexivity |].
  intros x Hx. unfold within in Hx. apply andb_true_iff in Hx.
  destruct Hx as [Hx _]. unfold func_identity, func_guarded.
  destruct (x <? 0)%float eqn:E; [| reflexivity].
  apply FloatOrder.ltb_not_leb in E. congruence.
Defined.

(** X7 on a concrete call: the constant 3 over a rectangle of height 1.5. *)
Lemma estimate_saturates_at_area_witness :
  fst (integral_mc MT19937.seed MT19937.random 2 1.5 func_three (PyInt 4)
         (Some 3) demo_world) = Return (2 * 1.5)%float.
Proof.
  apply (estimate_saturates_at_area MT19937.state MT19937.seed MT19937.random
           2 1.5 func_three 4 (Some 3) demo_world);
    [lia | reflexivity | reflexivity | reflexivity | reflexivity
    | vm_compute; reflexivity |].
  intros x _. exists 3%float. split; reflexivity.
Defined.

(** X8 on a concrete call: the constant -1. *)
Lemma estimate_vanishes_below_axis_witness :
  exists estimate,
    fst (integral_mc MT19937.seed MT19937.random 2 1.5 func_below (PyInt 4)
           (Some 3) demo_world) = Return estimate /\
    estimate = (0 * (2 * 1.5))%float /\
    (is_finite (2 * 1.5) = true -> is_zero estimate = true).
Proof.
  apply (estimate_vanishes_below_axis MT19937.state MT19937.seed
           MT19937.random 2 1.5 func_below 4 (Some 3) demo_world);
    [lia | reflexivity | reflexivity | reflexivity | reflexivity
    | vm_compute; reflexivity |].
  intros x _. exists (-1)%float. split; reflexivity.
Defined.

(** X11 on a concrete call: [xmax = 1.0] and the identity. *)
Lemma usage_example_forwards_points_number_witness :
  (forall points_number,
     rejects points_number = true ->
     usage_example MT19937.seed MT19937.random quad_midpoint draw_elementwise
       (PyFloat 1)
       points_number func_identity demo_world =
       (Raise (ValueError "points_number must be a positive integer"),
        demo_world)) /\
  usage_example MT19937.seed MT19937.random quad_midpoint draw_elementwise
    (PyFloat 1)
    (PyInt 0) func_identity demo_world = (Raise ZeroDivisionError, demo_world).
Proof.
  apply (usage_example_forwards_points_number MT19937.state MT19937.seed
           MT19937.random quad_midpoint draw_elementwise
             (PyFloat 1) func_identity
           demo_world (0.5, 0)%float 1%float);
    reflexivity.
Defined.

(** ** The production plan: the model and the report *)

Section ProductionFacts.

Import Production.

Lemma feasible_production juice lemonade :
  feasible production_model juice lemonade = true <->
  0 <= juice /\ 0 <= lemonade /\
  juice + 2 * lemonade <= 100 /\ lemonade <= 50 /\ lemonade <= 30 /\
  2 * juice <= 40.
Proof.
  unfold feasible, production_model, holds, forallb, constraints, juice_var,
    lemonade_var, lowBound, per_juice, per_lemonade, bound.
  rewrite !andb_true_iff, !Z.leb_le.
  unfold WATER_PER_JUICE, WATER_PER_LEMONADE, WATER_AVAILABLE, SUGAR_PER_JUICE,
    SUGAR_PER_LEMONADE, SUGAR_AVAILABLE, LEMON_JUICE_PER_JUICE,
    LEMON_JUICE_PER_LEMONADE, LEMON_JUICE_AVAILABLE, FRUIT_PUREE_PER_JUICE,
    FRUIT_PUREE_PER_LEMONADE, FRUIT_PUREE_AVAILABLE.
  lia.
Qed.

Lemma objective_production juice lemonade :
  objective production_model juice lemonade = juice + lemonade.
Proof. unfold objective, production_model, of_juice, of_lemonade. lia. Qed.

(** X12. The model handed to the solver has one optimum: every plan that
    respects the lower bounds and the four resource constraints makes at most
    50 products, the plan of 20 juice and 30 lemonade is feasible and makes
    50, and no other feasible plan does. *)
Theorem production_model_optimum juice lemonade :
  feasible production_model juice lemonade = true ->
  objective production_model juice lemonade <= 50 /\
  (objective production_model juice lemonade = 50 ->
   juice = 20 /\ lemonade = 30) /\
  feasible production_model 20 30 = true /\
  objective production_model 20 30 = 50.
Proof.
  intros H. apply feasible_production in H.
  rewrite objective_production. repeat split; try reflexivity; lia.
Qed.

(** X13. For a result whose status is not ['Optimal'], [print_results] prints
    the header, the status, the line [No optimal solution found!] and the
    closing rule, six lines in all; it never reads the quantities and never
    raises. *)
Theorem print_results_without_optimum (r : result) (out : list line) :
  String.eqb (status r) "Optimal" = false ->
  print_results r out =
    (Return tt,
     out ++ [ [Text banner];
              [Text "PRODUCTION OPTIMIZATION RESULTS"];
              [Text banner];
              [Text "Solver Status: "; Text (status r)];
              [Text (newline ++ "No optimal solution found!")];
              [Text banner] ]).
Proof.
  intros H. unfold print_results, then_, emit. rewrite H.
  cbn [fst snd]. rewrite <- !app_assoc. reflexivity.
Qed.

(** X14. [main] with a solver that meets its contract (status 1, values of a
    feasible plan that no feasible plan beats, reported as floats) prints the
    report of 20 juice and 30 lemonade: water 80/100 (80 percent), sugar
    30/50 (60 percent), lemon juice 30/30 and fruit puree 40/40 (100 percent
    each). *)
Theorem main_reports_the_optimum (solve : LpProblem -> Solved) juice lemonade :
  status_code (solve production_model) = 1 ->
  juice_value (solve production_model) = Some (PyFloat (float_of_int juice)) ->
  lemonade_value (solve production_model)
    = Some (PyFloat (float_of_int lemonade)) ->
  feasible production_model juice lemonade = true ->
  (forall j l, feasible production_model j l = true ->
               objective production_model j l
               <= objective production_model juice lemonade) ->
  juice = 20 /\ lemonade = 30 /\
  main solve = Found (Return tt, optimal_report).
Proof.
  intros Hc Hj Hl Hf Hopt.
  assert (Hjl : juice = 20 /\ lemonade = 30).
  { pose proof (Hopt 20 30 ltac:(reflexivity)) as Hbest.
    apply feasible_production in Hf.
    rewrite !objective_production in Hbest. lia. }
  destruct Hjl as [-> ->]. split; [reflexivity |]. split; [reflexivity |].
  unfold main, production_optimization.
  rewrite Hc, Hj, Hl. vm_compute. reflexivity.
Qed.


Lemma feasible_production_box juice lemonade :
  feasible production_model juice lemonade = true ->
  In juice (map Z.of_nat (seq 0 21)) /\ In lemonade (map Z.of_nat (seq 0 31)).
Proof.
  intros H. apply feasible_production in H. split; apply in_map_iff.
  - exists (Z.to_nat juice). split; [lia |]. apply in_seq. lia.
  - exists (Z.to_nat lemonade). split; [lia |]. apply in_seq. lia.
Qed.

Lemma reports_in_box (as_juice as_lemonade : Z -> pynum) :
  (as_juice = PyInt \/ as_juice = fun n => PyFloat (float_of_int n)) ->
  (as_lemonade = PyInt \/ as_lemonade = fun n => PyFloat (float_of_int n)) ->
  forallb
    (fun a =>
       forallb
         (fun b =>
            implb (feasible production_model a b)
              (well_formed_report
                 (print_results
                    {| status := "Optimal"; juice := as_juice a;
                       lemonade := as_lemonade b |} [])))
         (map Z.of_nat (seq 0 31)))
    (map Z.of_nat (seq 0 21)) = true.
Proof.
  intros [-> | ->] [-> | ->]; vm_compute; reflexivity.
Qed.

(** X15. For a result with status ['Optimal'] whose quantities are those of
    a feasible plan, given as ints or as floats, [print_results] prints its
    13 lines to the end without raising, and each of the four utilisation
    percentages it shows lies between 0 and 100. *)
Theorem feasible_plan_report (r : result) (a b : Z) :
  status r = "Optimal"%string ->
  represents (juice r) a -> represents (lemonade r) b ->
  feasible production_model a b = true ->
  exists report,
    print_results r [] = (Return tt, report) /\
    List.length report = 13%nat /\
    List.length (percentages report) = 4%nat /\
    forallb (within 100) (percentages report) = true.
Proof.
  intros Hs Hj Hl Hf. destruct r as [s j l]. cbn [status juice lemonade] in *.
  subst s.
  destruct (feasible_production_box a b Hf) as [Ha Hb].
  assert (H : well_formed_report
                (print_results
                   {| status := "Optimal"; juice := j; lemonade := l |} [])
              = true).
  { destruct Hj as [-> | ->], Hl as [-> | ->].
    - pose proof (reports_in_box PyInt PyInt (or_introl eq_refl)
                    (or_introl eq_refl)) as Hall.
      rewrite forallb_forall in Hall. specialize (Hall a Ha).
      rewrite forallb_forall in Hall. specialize (Hall b Hb).
      now rewrite Hf in Hall.
    - pose proof (reports_in_box PyInt _ (or_introl eq_refl)
                    (or_intror eq_refl)) as Hall.
      rewrite forallb_forall in Hall. specialize (Hall a Ha).
      rewrite forallb_forall in Hall. specialize (Hall b Hb).
      now rewrite Hf in Hall.
    - pose proof (reports_in_box _ PyInt (or_intror eq_refl)
                    (or_introl eq_refl)) as Hall.
      rewrite forallb_forall in Hall. specialize (Hall a Ha).
      rewrite forallb_forall in Hall. specialize (Hall b Hb).
      now rewrite Hf in Hall.
    - pose proof (reports_in_box _ _ (or_intror eq_refl)
                    (or_intror eq_refl)) as Hall.
      rewrite forallb_forall in Hall. specialize (Hall a Ha).
      rewrite forallb_forall in Hall. specialize (Hall b Hb).
      now rewrite Hf in Hall. }
  unfold well_formed_report in H.
  destruct (print_results _ _) as [[[] | e] report]; [| discriminate H].
  apply andb_true_iff in H. destruct H as [H Hp].
  apply andb_true_iff in H. destruct H as [Hn Hk].
  apply Nat.eqb_eq in Hn, Hk.
  exists report. repeat split; assumption.
Qed.

End ProductionFacts.

(** X12 on the feasible plan of 10 juice and 5 lemonade. *)
Lemma production_model_optimum_witness :
  Production.feasible Production.production_model 10 5 = true /\
  Production.objective Production.production_model 10 5 <= 50 /\
  (Production.objective Production.production_model 10 5 = 50 ->
   10 = 20 /\ 5 = 30) /\
  Production.feasible Production.production_model 20 30 = true /\
  Production.objective Production.production_model 20 30 = 50.
Proof.
  split; [reflexivity |].
  apply (production_model_optimum 10 5). reflexivity.
Defined.

(** X13 on an infeasible result. *)
Lemma print_results_without_optimum_witness :
  Production.print_results
    {| Production.status := "Infeasible"; Production.juice := PyInt 0;
       Production.lemonade := PyInt 0 |} [] =
  (Return tt,
   [ [Production.Text Production.banner];
     [Production.Text "PRODUCTION OPTIMIZATION RESULTS"];
     [Production.Text Production.banner];
     [Production.Text "Solver Status: "; Production.Text "Infeasible"];
     [Production.Text
        (Production.newline ++ "No optimal solution found!")];
     [Production.Text Production.banner] ]).
Proof.
  apply (print_results_without_optimum
           {| Production.status := "Infeasible"; Production.juice := PyInt 0;
              Production.lemonade := PyInt 0 |} []).
  reflexivity.
Defined.

(** X15 on the plan of 12 juice (a float) and 7 lemonade (an int). *)
Lemma feasible_plan_report_witness :
  exists report,
    Production.print_results
      {| Production.status := "Optimal"; Production.juice := PyFloat 12;
         Production.lemonade := PyInt 7 |} [] = (Return tt, report) /\
    List.length report = 13%nat /\
    List.length (Production.percentages report) = 4%nat /\
    forallb (within 100) (Production.percentages report) = true.
Proof.
  apply (feasible_plan_report
           {| Production.status := "Optimal"; Production.juice := PyFloat 12;
              Production.lemonade := PyInt 7 |} 12 7).
  - reflexivity.
  - right. reflexivity.
  - left. reflexivity.
  - reflexivity.
Defined.

(** X14 with a solver that answers 20.0 and 30.0. *)
Lemma main_reports_the_optimum_witness :
  20 = 20 /\ 30 = 30 /\
  Production.main Production.solve_optimally =
    Production.Found (Return tt, Production.optimal_report).
Proof.
  apply (main_reports_the_optimum Production.solve_optimally
           20 30).
  - reflexivity.
  - reflexivity.
  - reflexivity.
  - reflexivity.
  - intros j l H. apply feasible_production in H.
    rewrite !objective_production. lia.
Defined.
